(** * The OVH Cloud instance provider of scrapoxy

    A shallow embedding of [src/server/providers/ovhcloud/index.js]:
    the listing pipeline ([getModels]), the creation path with its
    running-instance cap and lazily resolved resource ids
    ([createInstances]), deletion, and the constructor guard. *)

From Stdlib Require Import String Ascii List ZArith Bool Lia.
Import ListNotations.
Open Scope string_scope.
Open Scope Z_scope.

Set Warnings "-register-all".

(** ** JavaScript values *)

(** What the vendor sends back is parsed JSON.  Numbers are kept as
    integers: the code only tests them for being zero and compares
    them. *)
Inductive Json : Type :=
| JNull
| JBool (b : bool)
| JNum (n : Z)
| JStr (s : string)
| JArr (elems : list Json)
| JObj (props : list (string * Json)).

(** A value held by an in-memory object: a JSON value, [undefined]
    (also what reading a missing property gives), or a function. *)
Inductive JsVal : Type :=
| JUndefined
| JJson (j : Json)
| JFun (fname : string).

Definition JsObj := list (string * JsVal).

Coercion JJson : Json >-> JsVal.

(** What a rejected promise or a thrown exception carries.
    [VendorFailure err results] stands for the string
    [err + ': ' + results] the request helpers reject with. *)
Inductive Thrown : Type :=
| ReferenceError (ident : string)
| TypeError (what : string)
| ErrorObj (message : string)
| Reason (v : Json)
| VendorFailure (err results : Json).

Inductive Result (A : Type) : Type :=
| Ok (a : A)
| Throw (e : Thrown).
Arguments Ok {A} a.
Arguments Throw {A} e.

Definition bindR {A B} (r : Result A) (k : A -> Result B) : Result B :=
  match r with
  | Ok a => k a
  | Throw e => Throw e
  end.

Fixpoint mapR {A B} (f : A -> Result B) (l : list A) : Result (list B) :=
  match l with
  | [] => Ok []
  | x :: r =>
      bindR (f x) (fun y => bindR (mapR f r) (fun ys => Ok (y :: ys)))
  end.

(** [_.filter] with a predicate that may throw: the first throw aborts
    the whole pass. *)
Fixpoint filterR {A} (p : A -> Result bool) (l : list A) : Result (list A) :=
  match l with
  | [] => Ok []
  | x :: r =>
      bindR (p x) (fun b =>
      bindR (filterR p r) (fun ys => Ok (if b then x :: ys else ys)))
  end.

(** ToBoolean. *)
Definition json_truthy (j : Json) : bool :=
  match j with
  | JNull => false
  | JBool b => b
  | JNum n => negb (n =? 0)
  | JStr s => negb (String.eqb s "")
  | JArr _ | JObj _ => true
  end.

Definition truthy (v : JsVal) : bool :=
  match v with
  | JUndefined => false
  | JJson j => json_truthy j
  | JFun _ => true
  end.

(** [v === s] for a string literal [s]. *)
Definition json_is_str (j : Json) (s : string) : bool :=
  match j with
  | JStr t => String.eqb t s
  | _ => false
  end.

Definition is_str (v : JsVal) (s : string) : bool :=
  match v with
  | JJson j => json_is_str j s
  | _ => false
  end.

(** Own-property read [o.k]; a missing property reads as [undefined]. *)
Fixpoint get (o : JsObj) (k : string) : JsVal :=
  match o with
  | [] => JUndefined
  | (k', v) :: r => if String.eqb k' k then v else get r k
  end.

(** [k in o]. *)
Fixpoint has (o : JsObj) (k : string) : bool :=
  match o with
  | [] => false
  | (k', _) :: r => if String.eqb k' k then true else has r k
  end.

(** [o[k] = v]: an existing key keeps its place, a new one goes last. *)
Fixpoint set (o : JsObj) (k : string) (v : JsVal) : JsObj :=
  match o with
  | [] => [(k, v)]
  | (k', v') :: r =>
      if String.eqb k' k then (k', v) :: r else (k', v') :: set r k v
  end.

(** [_.pick(o, keys)]: the listed keys that are in [o], in the order
    listed. *)
Fixpoint pick (o : JsObj) (keys : list string) : JsObj :=
  match keys with
  | [] => []
  | k :: r => if has o k then (k, get o k) :: pick o r else pick o r
  end.

(** [_.extend(o, src)]. *)
Definition extend (o src : JsObj) : JsObj :=
  fold_left (fun acc kv => set acc (fst kv) (snd kv)) src o.

Definition json_props (props : list (string * Json)) : JsObj :=
  map (fun kv => (fst kv, JJson (snd kv))) props.

(** [j.k] for a JSON value [j]: reading a property of [null] throws; the
    primitives and arrays have no property of the names read here. *)
Definition json_member (j : Json) (k : string) : Result JsVal :=
  match j with
  | JNull => Throw (TypeError "Cannot read property of null")
  | JObj props => Ok (get (json_props props) k)
  | _ => Ok JUndefined
  end.

(** [s.indexOf(pat)]. *)
Definition indexOf (s pat : string) : Z :=
  match String.index 0 pat s with
  | Some i => Z.of_nat i
  | None => -1
  end.

(** ** Data model *)

(** The configuration object; a missing [maxRunningInstances] is [None]. *)
Record ProviderConfig : Type := {
  endpoint : string;
  appKey : string;
  appSecret : string;
  consumerKey : string;
  serviceId : string;
  region : string;
  name : string;
  flavorName : string;
  snapshotName : string;
  sshKeyName : string;
  maxRunningInstances : option Z
}.

(** One element of the list endpoint's answer: a JSON object.  Its
    [ipAddresses] property is kept apart with its type, a list of
    address entries when present and [None] when the vendor sent none;
    [fields] holds every other property. *)
Record RawInstanceDescriptor : Type := {
  fields : list (string * Json);
  ipAddresses : option (list Json)
}.

(** The descriptor as the object the vendor client hands over. *)
Definition payload (d : RawInstanceDescriptor) : JsObj :=
  app (json_props (fields d))
      match ipAddresses d with
      | Some l => [("ipAddresses", JJson (JArr l))]
      | None => []
      end.

Inductive ModelStatus : Type := STARTED | STARTING | ERROR.

Record Address : Type := {
  hostname : JsVal;
  port : Z
}.

(** Modelled from the spec: [proxies/manager/instance.model] is not in
    the source tree; the spec gives the instance model as a value with
    the fields (id, providerName, status, address, providerOpts), the
    status constants STARTED, STARTING and ERROR, and [getProviderOpts]
    reading the last field back. *)
Record InstanceModel : Type := {
  id : JsVal;
  providerName : string;
  status : ModelStatus;
  address : option Address;
  providerOpts : JsObj
}.

Definition getProviderOpts (m : InstanceModel) : JsObj := providerOpts m.

Inductive LogLevel : Type := LDebug | LError.

Record LogEntry : Type := {
  level : LogLevel;
  message : string;
  args : list JsVal
}.

Definition ST_ACTIVE := "ACTIVE".
Definition ST_BUILD := "BUILD".
Definition ST_DELETING := "DELETING".
Definition ST_ERROR := "ERROR".

(** ** The listing pipeline of [getModels] *)

Definition getIP (instanceDesc : RawInstanceDescriptor) : Result JsVal :=
  match ipAddresses instanceDesc with
  | None => Ok JUndefined
  | Some [] => Ok JUndefined
  | Some (a :: _) => json_member a "ip"
  end.

Definition summarizeOne (instanceDesc : RawInstanceDescriptor) : Result JsObj :=
  bindR (getIP instanceDesc) (fun ip =>
  Ok (extend (pick (payload instanceDesc) ["id"; "status"; "name"])
             [("ip", ip); ("toString", JFun "toStringFn")])).

Definition summarizeInfo (instancesDesc : list RawInstanceDescriptor)
  : Result (list JsObj) :=
  mapR summarizeOne instancesDesc.

Definition notDeleting (instanceDesc : JsObj) : bool :=
  negb (is_str (get instanceDesc "status") ST_DELETING).

Definition excludeTerminated (instancesDesc : list JsObj) : list JsObj :=
  filter notDeleting instancesDesc.

(** [name && name.indexOf(prefix) == 0].  A string searches for the
    prefix as a substring, an array for an element strictly equal to
    it; no other truthy value has an [indexOf] to call. *)
Definition inScope (prefix : string) (instanceDesc : JsObj) : Result bool :=
  let n := get instanceDesc "name" in
  if negb (truthy n) then Ok false
  else match n with
       | JJson (JStr s) => Ok (indexOf s prefix =? 0)
       | JJson (JArr l) =>
           Ok (match l with
               | x :: _ => json_is_str x prefix
               | [] => false
               end)
       | _ => Throw (TypeError "indexOf is not a function")
       end.

Definition excludeOutscope (config : ProviderConfig)
  (instancesDesc : list JsObj) : Result (list JsObj) :=
  filterR (inScope (name config)) instancesDesc.

Definition buildAddress (instancePort : Z) (ip : JsVal) : option Address :=
  if negb (truthy ip) then None
  else Some {| hostname := ip; port := instancePort |}.

Definition unknownStatus (st : JsVal) : LogEntry :=
  {| level := LError;
     message := "[ProviderOVHCloud] Unknown status: ";
     args := [st] |}.

Definition convertStatus (st : JsVal) : ModelStatus * list LogEntry :=
  if is_str st ST_ACTIVE then (STARTED, [])
  else if is_str st ST_BUILD then (STARTING, [])
  else if is_str st ST_ERROR then (ERROR, [])
  else (ERROR, [unknownStatus st]).

Definition providerName_ovh := "ovhcloud".

Definition toModel (instancePort : Z) (instanceDesc : JsObj)
  : InstanceModel * list LogEntry :=
  let (st, logs) := convertStatus (get instanceDesc "status") in
  ({| id := get instanceDesc "id";
      providerName := providerName_ovh;
      status := st;
      address := buildAddress instancePort (get instanceDesc "ip");
      providerOpts := instanceDesc |}, logs).

Definition convertToModel (instancePort : Z) (instancesDesc : list JsObj)
  : list InstanceModel * list LogEntry :=
  let r := map (toModel instancePort) instancesDesc in
  (map fst r, concat (map snd r)).

(** The [then] chain of [getModels], applied to what the describe call
    resolved with. *)
Definition normalize (config : ProviderConfig) (instancePort : Z)
  (instancesDesc : list RawInstanceDescriptor)
  : Result (list InstanceModel * list LogEntry) :=
  bindR (summarizeInfo instancesDesc) (fun summaries =>
  bindR (excludeOutscope config (excludeTerminated summaries)) (fun kept =>
  Ok (convertToModel instancePort kept))).

(** ** The provider object and the vendor client *)

(** A call of [client.request(method, path, options, callback)]. *)
Record Request : Type := {
  method : string;
  path : string;
  options : JsObj
}.

(** What the callback receives: a truthy [err] with whatever came along,
    or the results. *)
Inductive Reply (A : Type) : Type :=
| Failed (err results : Json)
| Succeeded (results : A).
Arguments Failed {A} err results.
Arguments Succeeded {A} results.

(** The vendor behind the client: its answer to a request may depend on
    every request issued before. *)
Record Vendor : Type := {
  instances : list Request -> Reply (list RawInstanceDescriptor);
  respond : list Request -> Request -> Reply Json
}.

Record Provider : Type := {
  _config : ProviderConfig;
  _instancePort : Z;
  provider_name : string;
  _flavorId : JsVal;
  _snapshotId : JsVal;
  _sshKeyId : JsVal;
  _client : JsObj
}.

(** [_.pick(config, ['endpoint', 'appKey', 'appSecret', 'consumerKey'])]. *)
Definition clientOptions (c : ProviderConfig) : JsObj :=
  [("endpoint", JJson (JStr (endpoint c)));
   ("appKey", JJson (JStr (appKey c)));
   ("appSecret", JJson (JStr (appSecret c)));
   ("consumerKey", JJson (JStr (consumerKey c)))].

Definition notInstanced : string :=
  "[ProviderOVHCloud] should be instanced with config and instancePort".

(** The object the constructor leaves behind: the three ids unset. *)
Definition newProvider (c : ProviderConfig) (p : Z) (client : JsObj) : Provider :=
  {| _config := c;
     _instancePort := p;
     provider_name := providerName_ovh;
     _flavorId := JUndefined;
     _snapshotId := JUndefined;
     _sshKeyId := JUndefined;
     _client := client |}.

(** The constructor.  A missing argument is [None].  [ovh] is the client
    factory of the vendor SDK, which is no part of this file: it is
    given the picked options and returns the client or throws, and what
    it throws leaves the constructor. *)
Definition ProviderOVHCloud (ovh : JsObj -> Result JsObj)
  (config : option ProviderConfig) (instancePort : option Z) : Result Provider :=
  match config, instancePort with
  | Some c, Some p =>
      if negb (json_truthy (JNum p)) then Throw (ErrorObj notInstanced)
      else bindR (ovh (clientOptions c)) (fun client => Ok (newProvider c p client))
  | _, _ => Throw (ErrorObj notInstanced)
  end.

(** The provider, the requests issued so far (oldest first) and the
    error-level log lines; the debug lines, on which nothing depends,
    are left out. *)
Record World : Type := {
  self : Provider;
  requests : list Request;
  logs : list LogEntry
}.

(** An operation: its promise settles with a [Result] and leaves a new
    world. *)
Definition M (A : Type) : Type := World -> Result A * World.

Definition ret {A} (a : A) : M A := fun w => (Ok a, w).
Definition throw {A} (e : Thrown) : M A := fun w => (Throw e, w).

Definition bind {A B} (m : M A) (k : A -> M B) : M B :=
  fun w =>
    match m w with
    | (Ok a, w') => k a w'
    | (Throw e, w') => (Throw e, w')
    end.

Notation "x <- m ;; k" := (bind m (fun x => k))
  (at level 61, m at next level, right associativity).

(** [Promise.all] over promises built one after the other: every one of
    them issues its requests; the whole is rejected as soon as one is. *)
Fixpoint all {A} (ps : list (M A)) : M (list A) :=
  fun w =>
    match ps with
    | [] => (Ok [], w)
    | p :: rest =>
        let (x, w1) := p w in
        let (xs, w2) := all rest w1 in
        (match x, xs with
         | Ok a, Ok l => Ok (a :: l)
         | Throw e, _ => Throw e
         | Ok _, Throw e => Throw e
         end, w2)
    end.

Definition issue (r : Request) (w : World) : World :=
  {| self := self w; requests := (requests w ++ [r])%list; logs := logs w |}.

Definition request (v : Vendor) (r : Request) : M (Reply Json) :=
  fun w => (Ok (respond v (requests w) r), issue r w).

Definition update (f : Provider -> Provider) : M unit :=
  fun w => (Ok tt, {| self := f (self w); requests := requests w; logs := logs w |}).

Definition say (l : list LogEntry) : M unit :=
  fun w => (Ok tt, {| self := self w; requests := requests w;
                      logs := (logs w ++ l)%list |}).

Definition scoped (c : ProviderConfig) : JsObj :=
  [("serviceName", JJson (JStr (serviceId c)));
   ("region", JJson (JStr (region c)))].

Definition instancePath := "/cloud/project/{serviceName}/instance".

Definition describeRequest (c : ProviderConfig) : Request :=
  {| method := "GET"; path := instancePath; options := scoped c |}.

Definition _describeInstances (v : Vendor) : M (list RawInstanceDescriptor) :=
  fun w =>
    let r := describeRequest (_config (self w)) in
    match instances v (requests w) with
    | Failed err _ => (Throw (Reason err), issue r w)
    | Succeeded l => (Ok l, issue r w)
    end.

Definition getModels (v : Vendor) : M (list InstanceModel) :=
  fun w =>
    (instancesDesc <- _describeInstances v ;;
     match normalize (_config (self w)) (_instancePort (self w)) instancesDesc with
     | Ok (models, diagnostics) => _ <- say diagnostics ;; ret models
     | Throw e => throw e
     end) w.

(** ** [createInstances] *)

(** [_.findWhere(results, {name: name})]: the first element that is an
    object whose [name] is exactly the string looked for. *)
Definition named (nm : string) (j : Json) : bool :=
  match j with
  | JObj props => is_str (get (json_props props) "name") nm
  | _ => false
  end.

Definition findWhere (results : Json) (nm : string) : option Json :=
  match results with
  | JArr l => find (named nm) l
  | JObj props => find (named nm) (map snd props)
  | _ => None
  end.

Definition catalogueRequest (c : ProviderConfig) (kind : string) : Request :=
  {| method := "GET";
     path := "/cloud/project/{serviceName}/" ++ kind;
     options := scoped c |}.

(** The common body of [getFlavorByName], [getSnapshotByName] and
    [getSSHkeyByName]; [kind] is the last path segment and [label] the
    word of the error message. *)
Definition getByName (v : Vendor) (kind label nm : string) : M Json :=
  fun w =>
    (reply <- request v (catalogueRequest (_config (self w)) kind) ;;
     match reply with
     | Failed err results => throw (VendorFailure err results)
     | Succeeded results =>
         match findWhere results nm with
         | None => throw (ErrorObj ("Cannot find " ++ label ++ " by name '" ++ nm ++ "'"))
         | Some result => ret result
         end
     end) w.

Definition getFlavorByName (v : Vendor) (nm : string) : M Json :=
  getByName v "flavor" "flavor" nm.

Definition getSnapshotByName (v : Vendor) (nm : string) : M Json :=
  getByName v "snapshot" "snapshot" nm.

Definition getSSHkeyByName (v : Vendor) (nm : string) : M Json :=
  getByName v "sshkey" "sshKey" nm.

(** [result.id] of a catalogue entry. *)
Definition entryId (result : Json) : JsVal :=
  match result with
  | JObj props => get (json_props props) "id"
  | _ => JUndefined
  end.

Definition setFlavorId (x : JsVal) (p : Provider) : Provider :=
  {| _config := _config p; _instancePort := _instancePort p;
     provider_name := provider_name p;
     _flavorId := x; _snapshotId := _snapshotId p; _sshKeyId := _sshKeyId p;
     _client := _client p |}.

Definition setSnapshotId (x : JsVal) (p : Provider) : Provider :=
  {| _config := _config p; _instancePort := _instancePort p;
     provider_name := provider_name p;
     _flavorId := _flavorId p; _snapshotId := x; _sshKeyId := _sshKeyId p;
     _client := _client p |}.

Definition setSshKeyId (x : JsVal) (p : Provider) : Provider :=
  {| _config := _config p; _instancePort := _instancePort p;
     provider_name := provider_name p;
     _flavorId := _flavorId p; _snapshotId := _snapshotId p; _sshKeyId := x;
     _client := _client p |}.

(** [init]: the three tests are made on entry, each missing id adds one
    lookup whose result is stored when it arrives. *)
Definition init (v : Vendor) : M (list unit) :=
  fun w =>
    let p := self w in
    let c := _config p in
    let flavor :=
      if negb (truthy (_flavorId p)) then
        [flavor <- getFlavorByName v (flavorName c) ;;
         update (setFlavorId (entryId flavor))]
      else [] in
    let snapshot :=
      if negb (truthy (_snapshotId p)) then
        [snapshot <- getSnapshotByName v (snapshotName c) ;;
         update (setSnapshotId (entryId snapshot))]
      else [] in
    let sshKey :=
      if negb (truthy (_sshKeyId p)) then
        [sshKey <- getSSHkeyByName v (sshKeyName c) ;;
         update (setSshKeyId (entryId sshKey))]
      else [] in
    all (flavor ++ snapshot ++ sshKey)%list w.

Definition createRequest (p : Provider) : Request :=
  {| method := "POST";
     path := instancePath;
     options := [("serviceName", JJson (JStr (serviceId (_config p))));
                 ("region", JJson (JStr (region (_config p))));
                 ("flavorId", _flavorId p);
                 ("imageId", _snapshotId p);
                 ("name", JJson (JStr (name (_config p))));
                 ("sshKeyId", _sshKeyId p)] |}.

Definition createInstance (v : Vendor) : M unit :=
  fun w =>
    (reply <- request v (createRequest (self w)) ;;
     match reply with
     | Failed err results => throw (VendorFailure err results)
     | Succeeded _ => ret tt
     end) w.

(** The instances counted against the cap. *)
Definition actualCount (instances : list RawInstanceDescriptor) : Z :=
  Z.of_nat (length (filter (fun instance => notDeleting (payload instance)) instances)).

(** [maxRunningInstances && actualCount + count > maxRunningInstances]. *)
Definition limitReached (c : ProviderConfig) (actual count : Z) : bool :=
  match maxRunningInstances c with
  | None => false
  | Some cap => json_truthy (JNum cap) && (cap <? actual + count)
  end.

(** In the branch of the reached limit the code calls [reject], a name
    bound nowhere in its scope: evaluating it throws a ReferenceError,
    which rejects the promise of the enclosing [then]. *)
Definition createInstances (v : Vendor) (count : Z) : M (list unit) :=
  fun w =>
    (instances <- _describeInstances v ;;
     if limitReached (_config (self w)) (actualCount instances) count then
       throw (ReferenceError "reject")
     else
       _ <- init v ;;
       all (repeat (createInstance v) (Z.to_nat count))) w.

(** ** Deletion *)

Definition deleteRequest (c : ProviderConfig) (instanceId : JsVal) : Request :=
  {| method := "DELETE";
     path := "/cloud/project/{serviceName}/instance/{instanceId}";
     options := [("serviceName", JJson (JStr (serviceId c)));
                 ("instanceId", instanceId)] |}.

Definition _deleteInstance (v : Vendor) (instanceId : JsVal) : M Json :=
  fun w =>
    (reply <- request v (deleteRequest (_config (self w)) instanceId) ;;
     match reply with
     | Failed err results => throw (VendorFailure err results)
     | Succeeded results => ret results
     end) w.

Definition deleteInstance (v : Vendor) (model : InstanceModel) : M Json :=
  _deleteInstance v (get (getProviderOpts model) "id").

(** [deleteInstances]: on an empty list the function returns [undefined]
    and no promise, [Ok None] here; otherwise the promise of
    [Promise.map], settled with [Ok (Some results)] or a rejection. *)
Definition deleteInstances (v : Vendor) (models : list InstanceModel)
  : M (option (list Json)) :=
  if (Z.of_nat (length models) <=? 0) then ret None
  else
    results <- all (map (fun model =>
                 _deleteInstance v (get (getProviderOpts model) "id")) models) ;;
    ret (Some results).

Definition startInstance (model : InstanceModel) : Result unit :=
  Throw (ErrorObj "Unsupported method").

(** ** Readings of a raw descriptor *)

Definition rawId (d : RawInstanceDescriptor) : JsVal := get (payload d) "id".
Definition rawStatus (d : RawInstanceDescriptor) : JsVal := get (payload d) "status".
Definition rawName (d : RawInstanceDescriptor) : JsVal := get (payload d) "name".

(** The name is a string that starts with the prefix. *)
Definition startsWith (prefix : string) (v : JsVal) : bool :=
  match v with
  | JJson (JStr s) => String.prefix prefix s
  | _ => false
  end.

Definition isArray (v : JsVal) : bool :=
  match v with
  | JJson (JArr _) => true
  | _ => false
  end.

(** The vendor [v] with another answer to the listing of instances and
    the same answers to everything else. *)
Definition withInstances (v : Vendor) (l : list RawInstanceDescriptor) : Vendor :=
  {| instances := fun _ => Succeeded l; respond := respond v |}.

(** The requests of a trace sent to one path with one method. *)
Definition sentTo (meth pth : string) (r : Request) : bool :=
  String.eqb (method r) meth && String.eqb (path r) pth.

Definition countSent (meth pth : string) (l : list Request) : nat :=
  length (filter (sentTo meth pth) l).

(** The world after the requests [l] have been issued. *)
Definition issueAll (l : list Request) (w : World) : World :=
  {| self := self w; requests := (requests w ++ l)%list; logs := logs w |}.

(** The delete requests of [deleteInstances], one per model, in order. *)
Definition deleteRequests (c : ProviderConfig) (models : list InstanceModel)
  : list Request :=
  map (fun model => deleteRequest c (get (getProviderOpts model) "id")) models.

(** The promises [Promise.map] collects in [deleteInstances]. *)
Definition fanOut (v : Vendor) (models : list InstanceModel) : list (M Json) :=
  map (fun model => _deleteInstance v (get (getProviderOpts model) "id")) models.

(** The vendor's answer to the [k]-th of the requests [l] issued from
    the world [w] on. *)
Definition answerAt (v : Vendor) (w : World) (l : list Request) (k : nat)
  : option (Reply Json) :=
  match nth_error l k with
  | Some r => Some (respond v (requests w ++ firstn k l)%list r)
  | None => None
  end.

Definition isFailed {A} (r : Reply A) : bool :=
  match r with
  | Failed _ _ => true
  | Succeeded _ => false
  end.

(** The three resources whose ids [init] resolves, the provider field
    each id is kept in, the last segment of the list endpoint and the
    configured name looked for. *)
Inductive Resource : Type := Flavor | Snapshot | SshKey.

Definition slot (res : Resource) (p : Provider) : JsVal :=
  match res with
  | Flavor => _flavorId p
  | Snapshot => _snapshotId p
  | SshKey => _sshKeyId p
  end.

Definition segment (res : Resource) : string :=
  match res with
  | Flavor => "flavor"
  | Snapshot => "snapshot"
  | SshKey => "sshkey"
  end.

Definition wanted (res : Resource) (c : ProviderConfig) : string :=
  match res with
  | Flavor => flavorName c
  | Snapshot => snapshotName c
  | SshKey => sshKeyName c
  end.

Definition lookups (res : Resource) (l : list Request) : nat :=
  countSent "GET" ("/cloud/project/{serviceName}/" ++ segment res) l.

(** One block of [init]: the lookup by name, then the assignment. *)
Definition resolveStep (v : Vendor) (kind label nm : string)
  (store : JsVal -> Provider -> Provider) : M unit :=
  found <- getByName v kind label nm ;; update (store (entryId found)).

(** The three lists [init] puts together. *)
Definition blocks (v : Vendor) (w : World)
  : list (M unit) * list (M unit) * list (M unit) :=
  let p := self w in
  let c := _config p in
  (if negb (truthy (_flavorId p))
   then [resolveStep v "flavor" "flavor" (flavorName c) setFlavorId] else [],
   if negb (truthy (_snapshotId p))
   then [resolveStep v "snapshot" "snapshot" (snapshotName c) setSnapshotId] else [],
   if negb (truthy (_sshKeyId p))
   then [resolveStep v "sshkey" "sshKey" (sshKeyName c) setSshKeyId] else []).

(** The list requests [init] sends from a provider: one for each id
    that is missing, in the order flavor, snapshot, ssh key. *)
Definition initRequests (p : Provider) : list Request :=
  ((if truthy (_flavorId p) then []
    else [catalogueRequest (_config p) "flavor"]) ++
   (if truthy (_snapshotId p) then []
    else [catalogueRequest (_config p) "snapshot"]) ++
   (if truthy (_sshKeyId p) then []
    else [catalogueRequest (_config p) "sshkey"]))%list.

(** The errors the request helpers reject with: a failed vendor call or
    a name that is not in the vendor's list. *)
Definition requestError (e : Thrown) : bool :=
  match e with
  | VendorFailure _ _ | ErrorObj _ => true
  | _ => false
  end.

(** The word of the error message, the assignment and the whole block of
    [init] for each resource. *)
Definition noun (res : Resource) : string :=
  match res with
  | Flavor => "flavor"
  | Snapshot => "snapshot"
  | SshKey => "sshKey"
  end.

Definition store (res : Resource) : JsVal -> Provider -> Provider :=
  match res with
  | Flavor => setFlavorId
  | Snapshot => setSnapshotId
  | SshKey => setSshKeyId
  end.

Definition block (v : Vendor) (c : ProviderConfig) (res : Resource) : M unit :=
  resolveStep v (segment res) (noun res) (wanted res c) (store res).

(** Calls of [createInstances] made one after the other, each started
    when the one before has settled. *)
Fixpoint createSequence (v : Vendor) (counts : list Z) (w : World) : World :=
  match counts with
  | [] => w
  | count :: rest => createSequence v rest (snd (createInstances v count w))
  end.

(** An operation that leaves a resource alone: its id, the number of its
    list requests and the configuration are as before. *)
Definition untouched (res : Resource) (w w' : World) : Prop :=
  slot res (self w') = slot res (self w) /\
  lookups res (requests w') = lookups res (requests w) /\
  _config (self w') = _config (self w).

(** ** A sample pool *)

Module Sample.

Definition config : ProviderConfig :=
  {| endpoint := "ovh-eu"; appKey := "key"; appSecret := "secret";
     consumerKey := "consumer"; serviceId := "svc"; region := "GRA1";
     name := "pool-a"; flavorName := "vps-ssd-1"; snapshotName := "proxy";
     sshKeyName := "admin"; maxRunningInstances := Some 5 |}.

Definition active : RawInstanceDescriptor :=
  {| fields := [("id", JStr "i-1"); ("status", JStr "ACTIVE");
                ("name", JStr "pool-a-1"); ("flavorId", JStr "f-1")];
     ipAddresses := Some [JObj [("ip", JStr "10.0.0.1"); ("type", JStr "public")];
                          JObj [("ip", JStr "10.0.0.2"); ("type", JStr "private")]] |}.

Definition deleting : RawInstanceDescriptor :=
  {| fields := [("id", JStr "i-2"); ("status", JStr "DELETING");
                ("name", JStr "pool-a-2")];
     ipAddresses := Some [JObj [("ip", JStr "10.0.0.3")]] |}.

Definition other : RawInstanceDescriptor :=
  {| fields := [("id", JStr "i-3"); ("status", JStr "ACTIVE");
                ("name", JStr "other-x")];
     ipAddresses := Some [JObj [("ip", JStr "10.0.0.4")]] |}.

Definition building : RawInstanceDescriptor :=
  {| fields := [("id", JStr "i-4"); ("status", JStr "BUILD");
                ("name", JStr "pool-a-4")];
     ipAddresses := Some [] |}.

Definition suspended : RawInstanceDescriptor :=
  {| fields := [("id", JStr "i-5"); ("status", JStr "SUSPENDED");
                ("name", JStr "pool-a-5")];
     ipAddresses := None |}.

Definition unnamed : RawInstanceDescriptor :=
  {| fields := [("id", JStr "i-6"); ("status", JStr "ACTIVE");
                ("name", JNull)];
     ipAddresses := Some [JObj [("ip", JStr "10.0.0.6")]] |}.

Definition nameless : RawInstanceDescriptor :=
  {| fields := [("id", JStr "i-7"); ("status", JStr "ACTIVE")];
     ipAddresses := Some [JObj [("ip", JStr "10.0.0.7")]] |}.

Definition emptyNamed : RawInstanceDescriptor :=
  {| fields := [("id", JStr "i-8"); ("status", JStr "ACTIVE");
                ("name", JStr "")];
     ipAddresses := Some [JObj [("ip", JStr "10.0.0.8")]] |}.

(** A configuration whose pool-name prefix is the empty string. *)
Definition unscoped : ProviderConfig :=
  {| endpoint := "ovh-eu"; appKey := "key"; appSecret := "secret";
     consumerKey := "consumer"; serviceId := "svc"; region := "GRA1";
     name := ""; flavorName := "vps-ssd-1"; snapshotName := "proxy";
     sshKeyName := "admin"; maxRunningInstances := None |}.

(** A descriptor whose name is a number. *)
Definition numbered : RawInstanceDescriptor :=
  {| fields := [("id", JStr "i-9"); ("status", JStr "ACTIVE");
                ("name", JNum 7)];
     ipAddresses := None |}.

Definition catalogue : Json :=
  JArr [JObj [("id", JStr "F-0"); ("name", JStr "vps-ssd-10")];
        JObj [("id", JStr "F-1"); ("name", JStr "vps-ssd-1")];
        JObj [("id", JStr "S-1"); ("name", JStr "proxy")];
        JObj [("id", JStr "K-1"); ("name", JStr "admin")]].

(** A vendor that lists the given instances and accepts everything. *)
Definition vendor (l : list RawInstanceDescriptor) : Vendor :=
  {| instances := fun _ => Succeeded l;
     respond := fun _ r =>
       if String.eqb (method r) "GET" then Succeeded catalogue
       else Succeeded JNull |}.

(** A client factory in the manner of the vendor SDK: it throws on an
    endpoint it does not know and on a key or secret that is no string,
    and otherwise keeps the options. *)
Definition knownEndpoints : list string :=
  ["ovh-eu"; "ovh-ca"; "kimsufi-eu"; "kimsufi-ca";
   "soyoustart-eu"; "soyoustart-ca"; "runabove-ca"].

Definition isString (x : JsVal) : bool :=
  match x with
  | JJson (JStr _) => true
  | _ => false
  end.

Definition sdk (opts : JsObj) : Result JsObj :=
  let known :=
    match get opts "endpoint" with
    | JJson (JStr e) =>
        if String.eqb e "" then Ok tt
        else if existsb (String.eqb e) knownEndpoints then Ok tt
        else Throw (ErrorObj ("[OVH] Unknown API " ++ e))
    | _ => Ok tt
    end in
  bindR known (fun _ =>
  if isString (get opts "appKey") && isString (get opts "appSecret") then Ok opts
  else Throw (ErrorObj "[OVH] You should precise an application key / secret")).

(** The sample configuration with an endpoint the SDK does not know. *)
Definition elsewhere : ProviderConfig :=
  {| endpoint := "nowhere"; appKey := "key"; appSecret := "secret";
     consumerKey := "consumer"; serviceId := "svc"; region := "GRA1";
     name := "pool-a"; flavorName := "vps-ssd-1"; snapshotName := "proxy";
     sshKeyName := "admin"; maxRunningInstances := Some 5 |}.

(** A vendor with no instance and nothing in its lists. *)
Definition bare : Vendor :=
  {| instances := fun _ => Succeeded [];
     respond := fun _ _ => Succeeded (JArr []) |}.

(** A vendor whose lists hold the flavor and nothing else. *)
Definition flavorOnly : Vendor :=
  {| instances := fun _ => Succeeded [];
     respond := fun _ _ =>
       Succeeded (JArr [JObj [("id", JStr "F-1"); ("name", JStr "vps-ssd-1")]]) |}.

(** A vendor whose delete endpoint refuses the instance [i-2]. *)
Definition refusing : Vendor :=
  {| instances := fun _ => Succeeded [];
     respond := fun _ r =>
       if is_str (get (options r) "instanceId") "i-2"
       then Failed (JStr "Conflict") JNull
       else Succeeded JNull |}.

Definition provider (instancePort : Z) : Provider :=
  {| _config := config; _instancePort := instancePort;
     provider_name := providerName_ovh;
     _flavorId := JUndefined; _snapshotId := JUndefined;
     _sshKeyId := JUndefined;
     _client := [("endpoint", JJson (JStr "ovh-eu"));
                 ("appKey", JJson (JStr "key"));
                 ("appSecret", JJson (JStr "secret"));
                 ("consumerKey", JJson (JStr "consumer"))] |}.

Definition world : World :=
  {| self := provider 3128; requests := []; logs := [] |}.

Definition unscopedWorld : World :=
  {| self :=
       {| _config := unscoped; _instancePort := 3128;
          provider_name := providerName_ovh;
          _flavorId := JUndefined; _snapshotId := JUndefined;
          _sshKeyId := JUndefined; _client := [] |};
     requests := []; logs := [] |}.

Definition activeModel : InstanceModel :=
  {| id := JJson (JStr "i-1");
     providerName := "ovhcloud";
     status := STARTED;
     address := Some {| hostname := JJson (JStr "10.0.0.1"); port := 3128 |};
     providerOpts := [("id", JJson (JStr "i-1"));
                      ("status", JJson (JStr "ACTIVE"));
                      ("name", JJson (JStr "pool-a-1"));
                      ("ip", JJson (JStr "10.0.0.1"));
                      ("toString", JFun "toStringFn")] |}.

Definition suspendedModel : InstanceModel :=
  {| id := JJson (JStr "i-5");
     providerName := "ovhcloud";
     status := ERROR;
     address := None;
     providerOpts := [("id", JJson (JStr "i-5"));
                      ("status", JJson (JStr "SUSPENDED"));
                      ("name", JJson (JStr "pool-a-5"));
                      ("ip", JUndefined);
                      ("toString", JFun "toStringFn")] |}.

Definition deletingModel : InstanceModel :=
  {| id := JJson (JStr "i-2");
     providerName := "ovhcloud";
     status := ERROR;
     address := None;
     providerOpts := [("id", JJson (JStr "i-2"));
                      ("status", JJson (JStr "DELETING"));
                      ("name", JJson (JStr "pool-a-2"));
                      ("ip", JJson (JStr "10.0.0.3"));
                      ("toString", JFun "toStringFn")] |}.

Definition buildingModel : InstanceModel :=
  {| id := JJson (JStr "i-4");
     providerName := "ovhcloud";
     status := STARTING;
     address := None;
     providerOpts := [("id", JJson (JStr "i-4"));
                      ("status", JJson (JStr "BUILD"));
                      ("name", JJson (JStr "pool-a-4"));
                      ("ip", JUndefined);
                      ("toString", JFun "toStringFn")] |}.

End Sample.

(** * Properties *)

(** ** Objects, results and strings *)

Section Objects.

Lemma get_set_same (o : JsObj) (k : string) (v : JsVal) :
  get (set o k v) k = v.
Proof.
  induction o as [|[k' v'] r IH]; simpl.
  - now rewrite String.eqb_refl.
  - destruct (String.eqb k' k) eqn:E; simpl; rewrite E; auto.
Qed.

Lemma get_set_other (o : JsObj) (k k' : string) (v : JsVal) :
  k <> k' -> get (set o k v) k' = get o k'.
Proof.
  intros Hne. induction o as [|[k0 v0] r IH]; simpl.
  - destruct (String.eqb k k') eqn:E; auto.
    apply String.eqb_eq in E. contradiction.
  - destruct (String.eqb k0 k) eqn:E; simpl.
    + apply String.eqb_eq in E. subst k0.
      destruct (String.eqb k k') eqn:E'; auto.
      apply String.eqb_eq in E'. contradiction.
    + destruct (String.eqb k0 k'); auto.
Qed.

Lemma has_false_get (o : JsObj) (k : string) :
  has o k = false -> get o k = JUndefined.
Proof.
  induction o as [|[k' v'] r IH]; simpl; auto.
  destruct (String.eqb k' k); auto. discriminate.
Qed.

(** Reading a picked object: a listed key reads as in the original. *)
Lemma get_pick (o : JsObj) (keys : list string) (k : string) :
  In k keys -> get (pick o keys) k = get o k.
Proof.
  induction keys as [|k0 r IH]; simpl; [tauto|].
  intros Hin. destruct (String.eqb k0 k) eqn:E.
  - apply String.eqb_eq in E. subst k0.
    destruct (has o k) eqn:Hh.
    + simpl. now rewrite String.eqb_refl.
    + rewrite (has_false_get _ _ Hh).
      clear IH Hin. induction r as [|k1 r IH]; simpl; auto.
      destruct (has o k1) eqn:H1; auto.
      simpl. destruct (String.eqb k1 k) eqn:E1; auto.
      apply String.eqb_eq in E1. subst k1. now apply has_false_get.
  - assert (In k r) as Hr.
    { destruct Hin as [->|]; auto. rewrite String.eqb_refl in E. discriminate. }
    destruct (has o k0); simpl; [rewrite E|]; auto.
Qed.

Lemma get_pick_out (o : JsObj) (keys : list string) (k : string) :
  ~ In k keys -> get (pick o keys) k = JUndefined.
Proof.
  induction keys as [|k0 r IH]; simpl; auto.
  intros Hn. destruct (has o k0); simpl.
  - destruct (String.eqb k0 k) eqn:E.
    + apply String.eqb_eq in E. tauto.
    + apply IH. tauto.
  - apply IH. tauto.
Qed.

End Objects.

Section Results.

Context {A B : Type}.

Lemma mapR_In (f : A -> Result B) (l : list A) (ys : list B) (y : B) :
  mapR f l = Ok ys -> In y ys -> exists x, In x l /\ f x = Ok y.
Proof.
  revert ys. induction l as [|x r IH]; simpl; intros ys H Hin.
  - inversion H; subst. destruct Hin.
  - destruct (f x) as [b|] eqn:Ef; simpl in H; [|discriminate].
    destruct (mapR f r) as [bs|] eqn:Er; simpl in H; [|discriminate].
    inversion H; subst. destruct Hin as [->|Hin].
    + exists x. auto.
    + destruct (IH bs eq_refl Hin) as [x' [? ?]]. exists x'. auto.
Qed.

(** Taking one element out of a list that mapped without a throw. *)
Lemma mapR_remove (f : A -> Result B) (l1 l2 : list A) (d : A) (ys : list B) :
  mapR f (l1 ++ d :: l2) = Ok ys ->
  exists ys1 s ys2,
    ys = (ys1 ++ s :: ys2)%list /\ f d = Ok s /\
    mapR f (l1 ++ l2) = Ok (ys1 ++ ys2)%list.
Proof.
  revert ys. induction l1 as [|x r IH]; simpl; intros ys H.
  - destruct (f d) as [s|] eqn:Ef; simpl in H; [|discriminate].
    destruct (mapR f l2) as [bs|] eqn:Er; simpl in H; [|discriminate].
    inversion H; subst. exists [], s, bs. auto.
  - destruct (f x) as [b|] eqn:Ef; simpl in H; [|discriminate].
    destruct (mapR f (r ++ d :: l2)) as [bs|] eqn:Er; simpl in H; [|discriminate].
    inversion H; subst.
    destruct (IH bs eq_refl) as (ys1 & s & ys2 & -> & Hd & Hr).
    exists (b :: ys1), s, ys2. simpl. rewrite Hr. auto.
Qed.

End Results.

Section Filters.

Context {A : Type}.

Lemma filterR_In (p : A -> Result bool) (l ys : list A) (y : A) :
  filterR p l = Ok ys -> In y ys -> In y l /\ p y = Ok true.
Proof.
  revert ys. induction l as [|x r IH]; simpl; intros ys H Hin.
  - inversion H; subst. destruct Hin.
  - destruct (p x) as [b|] eqn:Ep; simpl in H; [|discriminate].
    destruct (filterR p r) as [bs|] eqn:Er; simpl in H; [|discriminate].
    inversion H; subst. destruct b.
    + destruct Hin as [->|Hin]; auto.
      destruct (IH bs eq_refl Hin). auto.
    + destruct (IH bs eq_refl Hin). auto.
Qed.

(** An element the predicate does not keep can be taken out of the
    input of a pass that went through. *)
Lemma filterR_remove (p : A -> Result bool) (l1 l2 ys : list A) (d : A) :
  filterR p (l1 ++ d :: l2) = Ok ys ->
  p d <> Ok true ->
  filterR p (l1 ++ l2) = Ok ys.
Proof.
  revert ys. induction l1 as [|x r IH]; simpl; intros ys H Hd.
  - destruct (p d) as [[|]|] eqn:Ep; simpl in H; try discriminate.
    + congruence.
    + destruct (filterR p l2); simpl in *; congruence.
  - destruct (p x) as [b|] eqn:Ep; simpl in H; [|discriminate].
    destruct (filterR p (r ++ d :: l2)) as [bs|] eqn:Er; simpl in H; [|discriminate].
    rewrite (IH bs eq_refl Hd). simpl. exact H.
Qed.

End Filters.

(** [indexOf] gives 0 exactly on the strings that start with the
    pattern. *)
Lemma indexOf_zero_prefix (s pat : string) :
  (indexOf s pat =? 0) = String.prefix pat s.
Proof.
  unfold indexOf.
  destruct (String.prefix pat s) eqn:Hp.
  - apply String.prefix_correct in Hp.
    destruct (String.index 0 pat s) as [i|] eqn:Hi.
    + destruct i as [|i]; auto.
      exfalso.
      assert (0 < S i)%nat as Hlt by lia.
      exact (String.index_correct2 0 (S i) pat s Hi 0%nat (Nat.le_refl 0) Hlt Hp).
    + exfalso.
      destruct pat as [|c pat'].
      * apply String.index_correct4 in Hi. lia.
      * refine (String.index_correct3 0 0 _ s Hi _ (Nat.le_refl 0) Hp).
        discriminate.
  - destruct (String.index 0 pat s) as [i|] eqn:Hi; auto.
    destruct i as [|i]; auto.
    pose proof (String.index_correct1 0 0 pat s Hi) as Hc.
    apply String.prefix_correct in Hc. congruence.
Qed.

(** ** The listing pipeline *)

Section Pipeline.

Variable config : ProviderConfig.
Variable instancePort : Z.

(** What a summary holds: the three picked properties as the vendor
    sent them, the first address, and nothing else of the payload. *)
Lemma summarizeOne_reads (d : RawInstanceDescriptor) (s : JsObj) :
  summarizeOne d = Ok s ->
  get s "id" = rawId d /\ get s "status" = rawStatus d /\
  get s "name" = rawName d /\ getIP d = Ok (get s "ip") /\
  get s "ipAddresses" = JUndefined.
Proof.
  unfold summarizeOne, rawId, rawStatus, rawName.
  remember (pick (payload d) ["id"; "status"; "name"]) as picked eqn:Hpick.
  destruct (getIP d) as [ip|] eqn:Hip; cbn [bindR]; [|discriminate].
  intros [= <-]. unfold extend. cbn [fold_left fst snd].
  subst picked. repeat apply conj.
  - rewrite !get_set_other by discriminate. apply get_pick. simpl; auto.
  - rewrite !get_set_other by discriminate. apply get_pick. simpl; auto.
  - rewrite !get_set_other by discriminate. apply get_pick. simpl; auto.
  - rewrite get_set_other by discriminate. now rewrite get_set_same.
  - rewrite !get_set_other by discriminate. apply get_pick_out.
    simpl. intros [H|[H|[H|[]]]]; discriminate.
Qed.

Lemma convertToModel_In (l : list JsObj) (m : InstanceModel) :
  In m (fst (convertToModel instancePort l)) ->
  exists s, In s l /\ m = fst (toModel instancePort s).
Proof.
  unfold convertToModel. simpl. rewrite map_map.
  intros H. apply in_map_iff in H. destruct H as [s [Hs Hin]].
  exists s. auto.
Qed.

Lemma toModel_providerOpts (s : JsObj) :
  providerOpts (fst (toModel instancePort s)) = s.
Proof.
  unfold toModel. destruct (convertStatus (get s "status")). reflexivity.
Qed.

(** Every model of the output comes from a descriptor of the input
    that passed both filters, and carries that descriptor's summary. *)
Lemma normalize_In (descs : list RawInstanceDescriptor)
  (models : list InstanceModel) (lg : list LogEntry) (m : InstanceModel) :
  normalize config instancePort descs = Ok (models, lg) ->
  In m models ->
  exists d, In d descs /\
    summarizeOne d = Ok (providerOpts m) /\
    notDeleting (providerOpts m) = true /\
    inScope (name config) (providerOpts m) = Ok true /\
    m = fst (toModel instancePort (providerOpts m)).
Proof.
  unfold normalize, summarizeInfo, excludeOutscope, excludeTerminated.
  destruct (mapR summarizeOne descs) as [ss|] eqn:Hs; simpl; [|discriminate].
  destruct (filterR _ _) as [kept|] eqn:Hk; simpl; [|discriminate].
  intros H Hin. inversion H; subst; clear H.
  change (map fst (map (toModel instancePort) kept))
    with (fst (convertToModel instancePort kept)) in Hin.
  destruct (convertToModel_In _ _ Hin) as [s [Hs1 ->]].
  rewrite toModel_providerOpts.
  destruct (filterR_In _ _ _ _ Hk Hs1) as [Hf Hscope].
  apply filter_In in Hf. destruct Hf as [Hss Hnd].
  destruct (mapR_In _ _ _ _ Hs Hss) as [d [Hd Hsum]].
  exists d. auto.
Qed.

(** A descriptor that one of the two filters drops has no effect on
    the output. *)
Lemma normalize_remove (l1 l2 : list RawInstanceDescriptor)
  (d : RawInstanceDescriptor) (r : list InstanceModel * list LogEntry) :
  normalize config instancePort (l1 ++ d :: l2) = Ok r ->
  (forall s, summarizeOne d = Ok s ->
     notDeleting s = false \/ inScope (name config) s <> Ok true) ->
  normalize config instancePort (l1 ++ l2) = Ok r.
Proof.
  unfold normalize, summarizeInfo, excludeOutscope, excludeTerminated.
  destruct (mapR summarizeOne (l1 ++ d :: l2)) as [ss|] eqn:Hs; simpl; [|discriminate].
  destruct (mapR_remove _ _ _ _ _ Hs) as (ys1 & s & ys2 & -> & Hd & Hr).
  rewrite Hr. simpl. intros H Hdrop.
  rewrite filter_app in *. simpl in H.
  destruct (Hdrop s Hd) as [Hdel|Hout].
  - rewrite Hdel in H. exact H.
  - destruct (notDeleting s); auto.
    destruct (filterR _ _) as [kept|] eqn:Hk; simpl in H; [|discriminate].
    rewrite (filterR_remove _ _ _ _ _ Hk Hout). exact H.
Qed.

(** [getModels] is the describe call followed by the pipeline. *)
Lemma getModels_normalize (v : Vendor) (w w' : World)
  (models : list InstanceModel) :
  _config (self w) = config -> _instancePort (self w) = instancePort ->
  getModels v w = (Ok models, w') ->
  exists descs lg,
    instances v (requests w) = Succeeded descs /\
    normalize config instancePort descs = Ok (models, lg) /\
    requests w' = (requests w ++ [describeRequest config])%list /\
    logs w' = (logs w ++ lg)%list /\
    self w' = self w.
Proof.
  intros Hc Hp. unfold getModels, bind, _describeInstances.
  rewrite Hc, Hp.
  destruct (instances v (requests w)) as [err res|descs]; [discriminate|].
  destruct (normalize config instancePort descs) as [[ms lg]|] eqn:Hn;
    simpl; [|discriminate].
  intros H. inversion H; subst; clear H.
  exists descs, lg. simpl. auto.
Qed.

End Pipeline.

(** A descriptor that one of the filters drops is behind no model of a
    listing, and the listing is the one of the other descriptors. *)
Lemma dropped_never_listed (v : Vendor) (w w' : World)
  (l1 l2 : list RawInstanceDescriptor) (d : RawInstanceDescriptor)
  (models : list InstanceModel) :
  instances v (requests w) = Succeeded (l1 ++ d :: l2)%list ->
  (forall s, summarizeOne d = Ok s ->
     notDeleting s = false \/ inScope (name (_config (self w))) s <> Ok true) ->
  getModels v w = (Ok models, w') ->
  (forall m, In m models -> summarizeOne d <> Ok (providerOpts m)) /\
  exists lg,
    normalize (_config (self w)) (_instancePort (self w)) (l1 ++ l2) = Ok (models, lg).
Proof.
  intros Hlist Hdrop Hget.
  destruct (getModels_normalize _ _ v w w' models eq_refl eq_refl Hget)
    as (descs & lg & Hd & Hn & _).
  rewrite Hlist in Hd. injection Hd as <-.
  split.
  - intros m Hin Hsum.
    destruct (normalize_In _ _ _ _ _ _ Hn Hin) as (d' & _ & _ & Hnd & Hsc & _).
    destruct (Hdrop _ Hsum) as [Hdel|Hout]; congruence.
  - exists lg. eapply normalize_remove; eauto.
Qed.

(** ** Claims about the listing *)




Lemma inScope_true (prefix : string) (s : JsObj) :
  inScope prefix s = Ok true ->
  startsWith prefix (get s "name") = true \/ isArray (get s "name") = true.
Proof.
  unfold inScope, startsWith, isArray.
  destruct (get s "name") as [|j|f]; simpl; try discriminate.
  destruct j as [|b|n|t|l|o]; simpl; try discriminate; auto.
  - destruct b; discriminate.
  - destruct (negb (n =? 0)); discriminate.
  - destruct (negb (String.eqb t "")); simpl; [|discriminate].
    rewrite indexOf_zero_prefix. intros [= ->]. auto.
Qed.

(** C4: a descriptor whose name is not a string starting with the
    configured prefix (and is not an array, which [indexOf] would search
    by element) is behind no model of a listing, whatever its status:
    the listing is the one of the other descriptors. *)
Theorem outscope_excluded (v : Vendor) (w w' : World)
  (l1 l2 : list RawInstanceDescriptor) (d : RawInstanceDescriptor)
  (models : list InstanceModel) :
  startsWith (name (_config (self w))) (rawName d) = false ->
  isArray (rawName d) = false ->
  instances v (requests w) = Succeeded (l1 ++ d :: l2)%list ->
  getModels v w = (Ok models, w') ->
  (forall m, In m models -> summarizeOne d <> Ok (providerOpts m)) /\
  exists lg,
    normalize (_config (self w)) (_instancePort (self w)) (l1 ++ l2)
      = Ok (models, lg).
Proof.
  intros Hpre Harr Hlist Hget.
  apply (dropped_never_listed v w w' l1 l2 d models Hlist); auto.
  intros s Hs. right. intros Hscope.
  destruct (summarizeOne_reads d s Hs) as (_ & _ & Hname & _).
  apply inScope_true in Hscope. rewrite Hname in Hscope.
  destruct Hscope; congruence.
Qed.

Lemma outscope_excluded_witness :
  (forall m, In m [Sample.activeModel] ->
     summarizeOne Sample.other <> Ok (providerOpts m)) /\
  exists lg,
    normalize Sample.config 3128 ([Sample.active; Sample.deleting] ++ [])
      = Ok ([Sample.activeModel], lg).
Proof.
  apply (outscope_excluded
           (Sample.vendor [Sample.active; Sample.deleting; Sample.other])
           Sample.world
           (snd (getModels (Sample.vendor [Sample.active; Sample.deleting; Sample.other])
                           Sample.world))
           [Sample.active; Sample.deleting] [] Sample.other [Sample.activeModel]);
    reflexivity.
Defined.

(** C10: a descriptor whose name is missing, [null] or the empty string
    is behind no model of a listing, for every configured prefix, the
    empty one included: the name is tested for truth before the prefix
    is looked for. *)
Theorem unnamed_excluded (v : Vendor) (w w' : World)
  (l1 l2 : list RawInstanceDescriptor) (d : RawInstanceDescriptor)
  (models : list InstanceModel) :
  rawName d = JUndefined \/ rawName d = JJson JNull \/ rawName d = JJson (JStr "") ->
  instances v (requests w) = Succeeded (l1 ++ d :: l2)%list ->
  getModels v w = (Ok models, w') ->
  (forall m, In m models -> summarizeOne d <> Ok (providerOpts m)) /\
  exists lg,
    normalize (_config (self w)) (_instancePort (self w)) (l1 ++ l2)
      = Ok (models, lg).
Proof.
  intros Hname Hlist Hget.
  apply (dropped_never_listed v w w' l1 l2 d models Hlist); auto.
  intros s Hs. right.
  destruct (summarizeOne_reads d s Hs) as (_ & _ & Hn & _).
  unfold inScope. rewrite Hn.
  destruct Hname as [->|[->| ->]]; simpl; discriminate.
Qed.

Lemma unnamed_excluded_witness :
  (forall m, In m [] -> summarizeOne Sample.emptyNamed <> Ok (providerOpts m)) /\
  exists lg,
    normalize Sample.unscoped 3128 ([Sample.nameless] ++ [Sample.unnamed])
      = Ok ([], lg).
Proof.
  apply (unnamed_excluded
           (Sample.vendor [Sample.nameless; Sample.emptyNamed; Sample.unnamed])
           Sample.unscopedWorld
           (snd (getModels (Sample.vendor [Sample.nameless; Sample.emptyNamed; Sample.unnamed])
                           Sample.unscopedWorld))
           [Sample.nameless] [Sample.unnamed] Sample.emptyNamed []).
  - right. right. reflexivity.
  - reflexivity.
  - reflexivity.
Defined.

Lemma toModel_status (instancePort : Z) (s : JsObj) :
  status (fst (toModel instancePort s)) = fst (convertStatus (get s "status")) /\
  snd (toModel instancePort s) = snd (convertStatus (get s "status")) /\
  address (fst (toModel instancePort s)) = buildAddress instancePort (get s "ip").
Proof.
  unfold toModel. destruct (convertStatus (get s "status")). simpl. auto.
Qed.

Lemma convertToModel_logs (instancePort : Z) (l : list JsObj) (s : JsObj) :
  In s l ->
  incl (snd (convertStatus (get s "status"))) (snd (convertToModel instancePort l)).
Proof.
  intros Hin e He. unfold convertToModel. simpl.
  apply in_concat. exists (snd (toModel instancePort s)). split.
  - rewrite map_map. apply in_map_iff. exists s. auto.
  - destruct (toModel_status instancePort s) as (_ & -> & _). exact He.
Qed.

(** C5: the status translation is a total function: ACTIVE gives
    STARTED, BUILD gives STARTING, ERROR gives ERROR, each without a log
    line, and every other value gives ERROR with one error-level line
    naming the value.  Every model of a listing has the translation of
    its descriptor's status, and the lines the translation wrote are in
    the log once the listing is through. *)
Theorem convertStatus_total :
  convertStatus (JJson (JStr "ACTIVE")) = (STARTED, []) /\
  convertStatus (JJson (JStr "BUILD")) = (STARTING, []) /\
  convertStatus (JJson (JStr "ERROR")) = (ERROR, []) /\
  (forall st : JsVal,
     st <> JJson (JStr "ACTIVE") -> st <> JJson (JStr "BUILD") ->
     st <> JJson (JStr "ERROR") ->
     convertStatus st = (ERROR, [unknownStatus st])) /\
  (forall (v : Vendor) (w w' : World) (models : list InstanceModel)
          (m : InstanceModel),
     getModels v w = (Ok models, w') -> In m models ->
     status m = fst (convertStatus (get (providerOpts m) "status")) /\
     incl (snd (convertStatus (get (providerOpts m) "status"))) (logs w')).
Proof.
  repeat apply conj; try reflexivity.
  - intros st Ha Hb He. unfold convertStatus.
    assert (forall t, st <> JJson (JStr t) -> is_str st t = false) as Hno.
    { intros t Hne. destruct st as [|j|f]; simpl; auto.
      destruct j; simpl; auto.
      destruct (String.eqb s t) eqn:E; auto.
      apply String.eqb_eq in E. subst. congruence. }
    unfold ST_ACTIVE, ST_BUILD, ST_ERROR.
    now rewrite (Hno _ Ha), (Hno _ Hb), (Hno _ He).
  - intros v w w' models m Hget Hin.
    destruct (getModels_normalize _ _ v w w' models eq_refl eq_refl Hget)
      as (descs & lg & _ & Hn & _ & Hlogs & _).
    destruct (normalize_In _ _ _ _ _ _ Hn Hin) as (d & _ & _ & _ & _ & Hm).
    split.
    + rewrite Hm at 1. apply toModel_status.
    + rewrite Hlogs. apply incl_appr.
      unfold normalize in Hn.
      destruct (summarizeInfo descs) as [ss|]; simpl in Hn; [|discriminate].
      destruct (excludeOutscope _ _) as [kept|]; simpl in Hn; [|discriminate].
      injection Hn as Hmodels Hlg. rewrite <- Hlg.
      apply convertToModel_logs.
      rewrite <- Hmodels in Hin.
      change (map fst (map (toModel (_instancePort (self w))) kept))
        with (fst (convertToModel (_instancePort (self w)) kept)) in Hin.
      destruct (convertToModel_In _ _ _ Hin) as [s [Hs ->]].
      now rewrite toModel_providerOpts.
Qed.

Lemma convertStatus_total_witness :
  convertStatus (JJson (JStr "SUSPENDED"))
    = (ERROR, [unknownStatus (JJson (JStr "SUSPENDED"))]) /\
  convertStatus JUndefined = (ERROR, [unknownStatus JUndefined]) /\
  status Sample.suspendedModel = ERROR /\
  incl [unknownStatus (JJson (JStr "SUSPENDED"))]
       (logs (snd (getModels (Sample.vendor [Sample.suspended]) Sample.world))).
Proof.
  destruct convertStatus_total as (_ & _ & _ & Hother & Hlisting).
  split; [apply Hother; discriminate|].
  split; [apply Hother; discriminate|].
  exact (Hlisting (Sample.vendor [Sample.suspended]) Sample.world
           (snd (getModels (Sample.vendor [Sample.suspended]) Sample.world))
           [Sample.suspendedModel] Sample.suspendedModel
           eq_refl (or_introl eq_refl)).
Defined.

(** C6: for a model of a listing and a descriptor whose summary it
    carries (there is one among those listed): without an address list,
    or with an empty one, the model has no address; with a first entry
    that carries an IP, the model's address has that IP as hostname and
    the configured instance port as port. *)
Theorem address_from_first_ip (v : Vendor) (w w' : World)
  (models : list InstanceModel) (m : InstanceModel) :
  getModels v w = (Ok models, w') ->
  In m models ->
  (exists descs d,
     instances v (requests w) = Succeeded descs /\ In d descs /\
     summarizeOne d = Ok (providerOpts m)) /\
  forall d, summarizeOne d = Ok (providerOpts m) ->
    (ipAddresses d = None \/ ipAddresses d = Some [] -> address m = None) /\
    (forall a rest ip,
       ipAddresses d = Some (a :: rest) ->
       json_member a "ip" = Ok ip -> truthy ip = true ->
       address m = Some {| hostname := ip; port := _instancePort (self w) |}).
Proof.
  intros Hget Hin.
  destruct (getModels_normalize _ _ v w w' models eq_refl eq_refl Hget)
    as (descs & lg & Hd & Hn & _).
  destruct (normalize_In _ _ _ _ _ _ Hn Hin) as (d0 & Hin0 & Hsum0 & _ & _ & Hm).
  split; [exists descs, d0; auto|].
  intros d Hsum.
  destruct (summarizeOne_reads d _ Hsum) as (_ & _ & _ & Hip & _).
  assert (address m = buildAddress (_instancePort (self w)) (get (providerOpts m) "ip"))
    as Haddr.
  { rewrite Hm at 1. apply toModel_status. }
  unfold getIP in Hip. split.
  - intros [He|He]; rewrite He in Hip; injection Hip as Hip;
      rewrite Haddr, <- Hip; reflexivity.
  - intros a rest ip He Hmem Htruthy. rewrite He, Hmem in Hip.
    injection Hip as Hip. rewrite Haddr, <- Hip.
    unfold buildAddress. now rewrite Htruthy.
Qed.

Lemma address_from_first_ip_witness :
  address Sample.activeModel
    = Some {| hostname := JJson (JStr "10.0.0.1"); port := 3128 |} /\
  address Sample.buildingModel = None.
Proof.
  pose (v := Sample.vendor [Sample.active; Sample.building]).
  assert (getModels v Sample.world
          = (Ok [Sample.activeModel; Sample.buildingModel],
             snd (getModels v Sample.world))) as Hget by reflexivity.
  split.
  - destruct (address_from_first_ip v Sample.world _ _ Sample.activeModel
                Hget (or_introl eq_refl)) as [_ Hall].
    destruct (Hall Sample.active eq_refl) as [_ Hfirst].
    exact (Hfirst _ _ _ eq_refl eq_refl eq_refl).
  - destruct (address_from_first_ip v Sample.world _ _ Sample.buildingModel
                Hget (or_intror (or_introl eq_refl))) as [_ Hall].
    destruct (Hall Sample.building eq_refl) as [Hnone _].
    exact (Hnone (or_intror eq_refl)).
Defined.

(** ** The constructor *)

(** C9 (as amended): construction succeeds exactly when it is given a
    non-empty configuration whose credentials the SDK's client factory
    accepts and an instance port other than zero, a negative port
    included, and the provider then has the configuration, the port, the
    client and no id.  Otherwise it fails at once: with the constructor's
    own error, the factory not even called, when the configuration or
    the port is missing or the port is 0, and with the factory's error
    when the factory throws. *)
Theorem construction_guard (ovh : JsObj -> Result JsObj)
  (config : option ProviderConfig) (instancePort : option Z) :
  (forall p,
     ProviderOVHCloud ovh config instancePort = Ok p <->
     exists c n client,
       config = Some c /\ instancePort = Some n /\ n <> 0 /\
       ovh (clientOptions c) = Ok client /\ p = newProvider c n client) /\
  (config = None \/ instancePort = None \/ instancePort = Some 0 ->
   forall other,
     ProviderOVHCloud other config instancePort = Throw (ErrorObj notInstanced)) /\
  (forall c n e,
     config = Some c -> instancePort = Some n -> n <> 0 ->
     ovh (clientOptions c) = Throw e ->
     ProviderOVHCloud ovh config instancePort = Throw e).
Proof.
  unfold ProviderOVHCloud. split; [|split].
  - intros p. split.
    + destruct config as [c|]; [|discriminate].
      destruct instancePort as [n|]; [|discriminate].
      simpl. destruct (Z.eqb_spec n 0) as [->|Hn]; simpl; [discriminate|].
      destruct (ovh (clientOptions c)) as [client|e] eqn:Hovh; simpl;
        [|discriminate].
      intros [= <-]. exists c, n, client. auto.
    + intros (c & n & client & -> & -> & Hn & Hovh & ->).
      simpl. destruct (Z.eqb_spec n 0) as [|_]; [contradiction|]. simpl.
      rewrite Hovh. reflexivity.
  - intros [->|[->| ->]] other.
    + reflexivity.
    + destruct config; reflexivity.
    + destruct config; reflexivity.
  - intros c n e -> -> Hn Hovh. simpl.
    destruct (Z.eqb_spec n 0) as [|_]; [contradiction|]. simpl.
    rewrite Hovh. reflexivity.
Qed.

(** C9 (as stated) fails on both sides.  With the sample configuration
    and the port -1, which is not positive, construction succeeds; with
    a non-empty configuration naming an endpoint the SDK does not know
    and the positive port 3128, it throws. *)
Lemma negative_port_accepted :
  ProviderOVHCloud Sample.sdk (Some Sample.config) (Some (-1))
    = Ok (Sample.provider (-1)) /\
  ProviderOVHCloud Sample.sdk (Some Sample.elsewhere) (Some 3128)
    = Throw (ErrorObj "[OVH] Unknown API nowhere").
Proof. split; reflexivity. Qed.

(** ** Traces of the vendor calls *)

Lemma describe_effect (v : Vendor) (w : World) :
  snd (_describeInstances v w) = issue (describeRequest (_config (self w))) w.
Proof.
  unfold _describeInstances. destruct (instances v (requests w)); reflexivity.
Qed.

(** ** The running-instance cap *)

(** C2 (as amended): with a configured cap other than zero, when the
    instances not DELETING plus [count] exceed the cap,
    [createInstances count] is rejected after one vendor call, the
    listing the count is taken from: no lookup of a flavor, snapshot or
    ssh key and no creation request is issued, and the provider is left
    as it was. *)
Theorem cap_rejects_before_creation (v : Vendor) (w : World) (count cap : Z)
  (descs : list RawInstanceDescriptor) :
  instances v (requests w) = Succeeded descs ->
  maxRunningInstances (_config (self w)) = Some cap ->
  cap <> 0 ->
  actualCount descs + count > cap ->
  exists e w',
    createInstances v count w = (Throw e, w') /\
    requests w' = (requests w ++ [describeRequest (_config (self w))])%list /\
    countSent "POST" instancePath (requests w')
      = countSent "POST" instancePath (requests w) /\
    self w' = self w /\ logs w' = logs w.
Proof.
  intros Hlist Hcap Hnz Hgt.
  unfold createInstances, bind, _describeInstances. rewrite Hlist.
  unfold limitReached. rewrite Hcap. simpl.
  destruct (Z.eqb_spec cap 0) as [|_]; [contradiction|]. simpl.
  assert ((cap <? actualCount descs + count) = true) as -> by (apply Z.ltb_lt; lia).
  eexists. eexists. split; [reflexivity|]. simpl.
  repeat split.
  unfold countSent. rewrite filter_app, length_app. simpl. lia.
Qed.

Lemma cap_rejects_before_creation_witness :
  exists e w',
    createInstances
      (Sample.vendor [Sample.active; Sample.active; Sample.building;
                      Sample.deleting; Sample.other]) 2 Sample.world
      = (Throw e, w') /\
    requests w' = (requests Sample.world ++ [describeRequest Sample.config])%list /\
    countSent "POST" instancePath (requests w')
      = countSent "POST" instancePath (requests Sample.world) /\
    self w' = self Sample.world /\ logs w' = logs Sample.world.
Proof.
  apply (cap_rejects_before_creation
           (Sample.vendor [Sample.active; Sample.active; Sample.building;
                           Sample.deleting; Sample.other]) Sample.world 2 5
           [Sample.active; Sample.active; Sample.building;
            Sample.deleting; Sample.other]).
  - reflexivity.
  - reflexivity.
  - discriminate.
  - vm_compute. reflexivity.
Defined.

(** C2 (as stated) fails: with the cap 5, four instances not DELETING
    and [count] 2, the promise is rejected with the ReferenceError of the
    unbound name [reject], not with the capacity error, and the listing
    request has been sent to the vendor by then. *)
Lemma cap_rejection_not_as_stated :
  actualCount [Sample.active; Sample.active; Sample.building;
               Sample.deleting; Sample.other] = 4 /\
  fst (createInstances
         (Sample.vendor [Sample.active; Sample.active; Sample.building;
                         Sample.deleting; Sample.other]) 2 Sample.world)
    = Throw (ReferenceError "reject") /\
  requests (snd (createInstances
         (Sample.vendor [Sample.active; Sample.active; Sample.building;
                         Sample.deleting; Sample.other]) 2 Sample.world))
    = [describeRequest Sample.config] /\
  [describeRequest Sample.config] <> [].
Proof.
  repeat split; try reflexivity. discriminate.
Qed.

(** ** Deletion *)

Section Deletion.

Variable v : Vendor.

Lemma deleteInstance_step (instanceId : JsVal) (w : World) :
  _deleteInstance v instanceId w =
  (match respond v (requests w) (deleteRequest (_config (self w)) instanceId) with
   | Failed err results => Throw (VendorFailure err results)
   | Succeeded results => Ok results
   end,
   issue (deleteRequest (_config (self w)) instanceId) w).
Proof.
  unfold _deleteInstance, bind, request.
  destruct (respond v (requests w) _); reflexivity.
Qed.

Lemma fanOut_trace (models : list InstanceModel) (w : World) :
  snd (all (fanOut v models) w)
  = issueAll (deleteRequests (_config (self w)) models) w.
Proof.
  revert w. induction models as [|m r IH]; intros w; simpl.
  - unfold issueAll. rewrite app_nil_r. now destruct w.
  - rewrite deleteInstance_step.
    specialize (IH (issue (deleteRequest (_config (self w))
                             (get (getProviderOpts m) "id")) w)).
    fold (fanOut v r). destruct (all (fanOut v r) _) as [xs w2].
    simpl in *. rewrite IH. unfold issueAll, issue. simpl.
    now rewrite <- app_assoc.
Qed.

Lemma answerAt_shift (w : World) (r : Request) (l : list Request) (k : nat) :
  answerAt v w (r :: l) (S k) = answerAt v (issue r w) l k.
Proof.
  unfold answerAt. simpl. destruct (nth_error l k); auto.
  now rewrite <- app_assoc.
Qed.

Lemma fanOut_fails (models : list InstanceModel) (w : World) (k : nat)
  (reply : Reply Json) :
  answerAt v w (deleteRequests (_config (self w)) models) k = Some reply ->
  isFailed reply = true ->
  exists e, fst (all (fanOut v models) w) = Throw e.
Proof.
  revert w k. induction models as [|m r IH]; intros w k Hk Hf.
  - unfold answerAt in Hk. destruct k; discriminate.
  - simpl. rewrite deleteInstance_step.
    fold (fanOut v r).
    destruct (all (fanOut v r) _) as [xs w2] eqn:Hrest.
    destruct k as [|k].
    + unfold answerAt in Hk. simpl in Hk. rewrite app_nil_r in Hk.
      injection Hk as <-.
      destruct (respond v (requests w) _); [|discriminate].
      simpl. eauto.
    + unfold deleteRequests in Hk. simpl in Hk.
      rewrite answerAt_shift in Hk.
      destruct (IH _ k Hk Hf) as [e He].
      rewrite Hrest in He. simpl in He. subst xs.
      destruct (respond v (requests w) _); simpl; eauto.
Qed.

Lemma fanOut_succeeds (models : list InstanceModel) (w : World) :
  (forall k reply,
     answerAt v w (deleteRequests (_config (self w)) models) k = Some reply ->
     isFailed reply = false) ->
  exists results,
    fst (all (fanOut v models) w) = Ok results /\
    length results = length models.
Proof.
  revert w. induction models as [|m r IH]; intros w Hall.
  - exists []. auto.
  - simpl. rewrite deleteInstance_step. fold (fanOut v r).
    destruct (all (fanOut v r) _) as [xs w2] eqn:Hrest.
    pose proof (Hall 0%nat) as H0. unfold answerAt in H0. simpl in H0.
    rewrite app_nil_r in H0.
    destruct (respond v (requests w) _) as [err res|res].
    { specialize (H0 _ eq_refl). discriminate. }
    destruct (IH (issue (deleteRequest (_config (self w))
                           (get (getProviderOpts m) "id")) w)) as [rs [Hrs Hlen]].
    { intros k reply Hk. apply (Hall (S k)).
      unfold deleteRequests. simpl. rewrite answerAt_shift. exact Hk. }
    rewrite Hrest in Hrs. simpl in Hrs. subst xs.
    exists (res :: rs). simpl. auto.
Qed.

(** C8 (as amended): on the empty list [deleteInstances] returns at
    once, without an error and without a vendor call, and what it
    returns is [undefined], no promise.  On a non-empty list it issues
    the delete requests of the models, one per model and nothing else;
    its promise is rejected when the vendor fails one of them, and
    fulfilled with one result per model when the vendor fails none. *)
Theorem deleteInstances_fan_out (models : list InstanceModel) (w : World) :
  deleteInstances v [] w = (Ok None, w) /\
  (models <> [] ->
   let sent := deleteRequests (_config (self w)) models in
   length sent = length models /\
   snd (deleteInstances v models w) = issueAll sent w /\
   (forall k reply,
      answerAt v w sent k = Some reply -> isFailed reply = true ->
      exists e, fst (deleteInstances v models w) = Throw e) /\
   ((forall k reply, answerAt v w sent k = Some reply -> isFailed reply = false) ->
    exists results,
      fst (deleteInstances v models w) = Ok (Some results) /\
      length results = length models)).
Proof.
  split; [reflexivity|].
  intros Hne sent.
  assert (deleteInstances v models w =
          (match fst (all (fanOut v models) w) with
           | Ok results => Ok (Some results)
           | Throw e => Throw e
           end, snd (all (fanOut v models) w))) as Heq.
  { unfold deleteInstances. destruct models as [|m r]; [congruence|].
    cbn [length Z.of_nat].
    destruct (Z.leb_spec (Z.pos (Pos.of_succ_nat (length r))) 0) as [Hle|_]; [lia|].
    unfold bind. fold (fanOut v (m :: r)).
    destruct (all (fanOut v (m :: r)) w) as [[rs|e] w']; reflexivity. }
  rewrite Heq. simpl. repeat apply conj.
  - unfold sent, deleteRequests. apply length_map.
  - apply fanOut_trace.
  - intros k reply Hk Hf.
    destruct (fanOut_fails models w k reply Hk Hf) as [e ->]. eauto.
  - intros Hall. destruct (fanOut_succeeds models w Hall) as [rs [-> Hlen]].
    eauto.
Qed.

End Deletion.

(** C8 (as stated) fails: on the empty list nothing resolves.  The call
    returns [undefined] (lines 312-314), not a promise fulfilled with
    some results, which is what the non-empty branch returns. *)
Lemma deleteInstances_empty_no_promise :
  deleteInstances Sample.refusing [] Sample.world = (Ok None, Sample.world) /\
  (forall results,
     fst (deleteInstances Sample.refusing [] Sample.world) <> Ok (Some results)) /\
  exists results,
    fst (deleteInstances Sample.refusing [Sample.activeModel] Sample.world)
      = Ok (Some results).
Proof.
  split; [reflexivity|]. split.
  - intros results H. discriminate H.
  - eexists. reflexivity.
Qed.

Lemma deleteInstances_fan_out_witness :
  deleteInstances Sample.refusing [] Sample.world = (Ok None, Sample.world) /\
  requests (snd (deleteInstances Sample.refusing
                   [Sample.activeModel; Sample.buildingModel] Sample.world))
    = [deleteRequest Sample.config (JJson (JStr "i-1"));
       deleteRequest Sample.config (JJson (JStr "i-4"))] /\
  (exists results,
     fst (deleteInstances Sample.refusing
            [Sample.activeModel; Sample.buildingModel] Sample.world)
       = Ok (Some results) /\
     length results = 2%nat) /\
  exists e,
    fst (deleteInstances Sample.refusing
           [Sample.activeModel; Sample.deletingModel; Sample.buildingModel]
           Sample.world) = Throw e.
Proof.
  destruct (deleteInstances_fan_out Sample.refusing
              [Sample.activeModel; Sample.buildingModel] Sample.world)
    as [Hempty Hsome].
  destruct Hsome as (_ & Htrace & _ & Hok); [discriminate|].
  destruct (deleteInstances_fan_out Sample.refusing
              [Sample.activeModel; Sample.deletingModel; Sample.buildingModel]
              Sample.world) as [_ Hrefused].
  destruct Hrefused as (_ & _ & Hfail & _); [discriminate|].
  split; [exact Hempty|]. split; [|split].
  - rewrite Htrace. reflexivity.
  - apply Hok. intros k reply.
    destruct k as [|[|k]]; unfold answerAt; simpl.
    + intros [= <-]. reflexivity.
    + intros [= <-]. reflexivity.
    + destruct k; discriminate.
  - apply (Hfail 1%nat (Failed (JStr "Conflict") JNull)); reflexivity.
Defined.

(** ** Resolution of the resource ids *)

Section Resolution.

Variable v : Vendor.

Lemma untouched_refl (res : Resource) (w : World) : untouched res w w.
Proof. unfold untouched. auto. Qed.

Lemma untouched_trans (res : Resource) (w1 w2 w3 : World) :
  untouched res w1 w2 -> untouched res w2 w3 -> untouched res w1 w3.
Proof.
  unfold untouched. intros (? & ? & ?) (? & ? & ?).
  repeat split; congruence.
Qed.

Lemma all_untouched {A} (res : Resource) (ps : list (M A)) :
  (forall p, In p ps -> forall w, untouched res w (snd (p w))) ->
  forall w, untouched res w (snd (all ps w)).
Proof.
  induction ps as [|p r IH]; intros Hps w; simpl.
  - apply untouched_refl.
  - pose proof (Hps p (or_introl eq_refl) w) as Hp.
    destruct (p w) as [x w1]. simpl in Hp.
    pose proof (IH (fun q Hq => Hps q (or_intror Hq)) w1) as Hr.
    destruct (all r w1) as [xs w2]. simpl in *.
    eapply untouched_trans; eauto.
Qed.

Lemma all_app_ok {A} (ps qs : list (M A)) (w w' : World) (r : list A) :
  all (ps ++ qs) w = (Ok r, w') ->
  exists r1 r2 w1, all ps w = (Ok r1, w1) /\ all qs w1 = (Ok r2, w').
Proof.
  revert w r. induction ps as [|p ps IH]; intros w r; simpl.
  - intros H. exists [], r, w. auto.
  - destruct (p w) as [x w1].
    destruct (all (ps ++ qs) w1) as [xs w2] eqn:Hrest.
    intros H.
    destruct x as [a|e]; [|discriminate].
    destruct xs as [l|e]; [|discriminate].
    injection H as <- <-.
    destruct (IH _ _ Hrest) as (r1 & r2 & w3 & H1 & H2).
    rewrite H1. exists (a :: r1), r2, w3. auto.
Qed.

Lemma issue_lookups (res : Resource) (r : Request) (w : World) :
  lookups res (requests (issue r w))
  = (lookups res (requests w)
     + (if sentTo "GET" ("/cloud/project/{serviceName}/" ++ segment res) r
        then 1 else 0))%nat.
Proof.
  unfold lookups, countSent, issue. simpl.
  rewrite filter_app, length_app. simpl.
  destruct (sentTo _ _ r); reflexivity.
Qed.

Lemma describe_untouched (res : Resource) (w : World) :
  untouched res w (snd (_describeInstances v w)).
Proof.
  rewrite describe_effect. unfold untouched. rewrite issue_lookups.
  destruct res; simpl; auto.
Qed.

Lemma createInstance_untouched (res : Resource) (w : World) :
  untouched res w (snd (createInstance v w)).
Proof.
  unfold createInstance, bind, request.
  destruct (respond v (requests w) _); simpl;
    unfold untouched; rewrite issue_lookups; destruct res; simpl; auto.
Qed.

(** What a block does: it always issues its list request; it stores
    the id of the first entry of that exact name when the vendor
    answers and has one, and fails otherwise. *)
Lemma resolveStep_cases (kind label nm : string)
  (store : JsVal -> Provider -> Provider) (w : World) :
  let w1 := issue (catalogueRequest (_config (self w)) kind) w in
  (exists e, resolveStep v kind label nm store w = (Throw e, w1)) \/
  (exists results entry,
     findWhere results nm = Some entry /\
     resolveStep v kind label nm store w
     = (Ok tt, {| self := store (entryId entry) (self w1);
                  requests := requests w1; logs := logs w1 |})).
Proof.
  unfold resolveStep, getByName, bind, request. simpl.
  destruct (respond v (requests w) _) as [err res|res]; simpl.
  - left. eauto.
  - destruct (findWhere res nm) as [entry|] eqn:Hf; simpl.
    + right. exists res, entry. auto.
    + left. eauto.
Qed.


Lemma resolveStep_untouched (res : Resource) (kind label nm : string)
  (store : JsVal -> Provider -> Provider) (w : World) :
  (forall x p, slot res (store x p) = slot res p /\
               _config (store x p) = _config p) ->
  kind <> segment res ->
  untouched res w (snd (resolveStep v kind label nm store w)).
Proof.
  intros Hstore Hkind.
  assert (untouched res w (issue (catalogueRequest (_config (self w)) kind) w))
    as Hissue.
  { unfold untouched. rewrite issue_lookups. simpl.
    unfold sentTo. simpl.
    destruct (String.eqb_spec kind (segment res)) as [E|_];
      [contradiction|].
    repeat split; lia. }
  destruct (resolveStep_cases kind label nm store w)
    as [[e ->]|(results & entry & _ & ->)]; simpl; auto.
  destruct Hissue as (Hs & Hl & Hc).
  destruct (Hstore (entryId entry)
              (self (issue (catalogueRequest (_config (self w)) kind) w)))
    as [Hs' Hc'].
  unfold untouched. simpl in *. repeat split; congruence.
Qed.

(** A block that succeeds has sent one list request for its resource
    and stored the id of the entry found under the name. *)
Lemma resolveStep_resolves (res : Resource) (label nm : string)
  (store : JsVal -> Provider -> Provider) (w w' : World) (r : unit) :
  (forall x p, slot res (store x p) = x /\ _config (store x p) = _config p) ->
  resolveStep v (segment res) label nm store w = (Ok r, w') ->
  exists results entry,
    findWhere results nm = Some entry /\
    slot res (self w') = entryId entry /\
    lookups res (requests w') = S (lookups res (requests w)) /\
    _config (self w') = _config (self w).
Proof.
  intros Hstore Hrun.
  destruct (resolveStep_cases (segment res) label nm store w)
    as [[e He]|(results & entry & Hfind & He)]; rewrite He in Hrun;
    [discriminate|].
  injection Hrun as _ <-. exists results, entry.
  destruct (Hstore (entryId entry) (self w)) as [Hs Hc].
  pose proof (issue_lookups res
                (catalogueRequest (_config (self w)) (segment res)) w) as Hl.
  unfold sentTo in Hl. simpl in Hl. rewrite String.eqb_refl in Hl.
  simpl. repeat split; auto. rewrite Hl. lia.
Qed.


Lemma init_blocks (w : World) :
  init v w =
  all (fst (fst (blocks v w)) ++ snd (fst (blocks v w)) ++ snd (blocks v w))%list w.
Proof. reflexivity. Qed.

Ltac block_untouched :=
  intros ?w; apply resolveStep_untouched;
  [intros ?x ?p; split; reflexivity | discriminate].

Lemma flavorBlock_untouched (res : Resource) (w : World) (p : M unit) :
  res <> Flavor -> In p (fst (fst (blocks v w))) ->
  forall w0, untouched res w0 (snd (p w0)).
Proof.
  intros Hres Hin. unfold blocks in Hin. simpl in Hin.
  destruct (negb (truthy (_flavorId (self w)))); simpl in Hin; [|tauto].
  destruct Hin as [<-|[]]. destruct res; [congruence| |]; block_untouched.
Qed.

Lemma snapshotBlock_untouched (res : Resource) (w : World) (p : M unit) :
  res <> Snapshot -> In p (snd (fst (blocks v w))) ->
  forall w0, untouched res w0 (snd (p w0)).
Proof.
  intros Hres Hin. unfold blocks in Hin. simpl in Hin.
  destruct (negb (truthy (_snapshotId (self w)))); simpl in Hin; [|tauto].
  destruct Hin as [<-|[]]. destruct res; [|congruence|]; block_untouched.
Qed.

Lemma sshKeyBlock_untouched (res : Resource) (w : World) (p : M unit) :
  res <> SshKey -> In p (snd (blocks v w)) ->
  forall w0, untouched res w0 (snd (p w0)).
Proof.
  intros Hres Hin. unfold blocks in Hin. simpl in Hin.
  destruct (negb (truthy (_sshKeyId (self w)))); simpl in Hin; [|tauto].
  destruct Hin as [<-|[]]. destruct res; [| |congruence]; block_untouched.
Qed.

(** [init] leaves alone every resource whose id is already there. *)
Lemma init_untouched (res : Resource) (w : World) :
  truthy (slot res (self w)) = true ->
  untouched res w (snd (init v w)).
Proof.
  intros Hset. rewrite init_blocks. apply all_untouched.
  intros p Hin. rewrite !in_app_iff in Hin.
  destruct res.
  - destruct Hin as [Hin|[Hin|Hin]].
    + unfold blocks in Hin. simpl in Hin, Hset. rewrite Hset in Hin. destruct Hin.
    + eapply snapshotBlock_untouched; eauto. discriminate.
    + eapply sshKeyBlock_untouched; eauto. discriminate.
  - destruct Hin as [Hin|[Hin|Hin]].
    + eapply flavorBlock_untouched; eauto. discriminate.
    + unfold blocks in Hin. simpl in Hin, Hset. rewrite Hset in Hin. destruct Hin.
    + eapply sshKeyBlock_untouched; eauto. discriminate.
  - destruct Hin as [Hin|[Hin|Hin]].
    + eapply flavorBlock_untouched; eauto. discriminate.
    + eapply snapshotBlock_untouched; eauto. discriminate.
    + unfold blocks in Hin. simpl in Hin, Hset. rewrite Hset in Hin. destruct Hin.
Qed.

Lemma all_one_ok {A} (p : M A) (w w' : World) (r : list A) :
  all [p] w = (Ok r, w') -> exists a, p w = (Ok a, w').
Proof.
  simpl. destruct (p w) as [[a|e] w1]; [|discriminate].
  intros [= _ <-]. eauto.
Qed.

(** A successful [init] has resolved every id that was missing: one
    list request, and the id of the entry found under the configured
    name is in the provider. *)
Lemma init_resolves (res : Resource) (w w' : World) (r : list unit) :
  truthy (slot res (self w)) = false ->
  init v w = (Ok r, w') ->
  exists results entry,
    findWhere results (wanted res (_config (self w))) = Some entry /\
    slot res (self w') = entryId entry /\
    lookups res (requests w') = S (lookups res (requests w)) /\
    _config (self w') = _config (self w).
Proof.
  intros Hunset Hrun. rewrite init_blocks in Hrun.
  destruct (all_app_ok _ _ _ _ _ Hrun) as (r1 & r23 & w1 & H1 & H23).
  destruct (all_app_ok _ _ _ _ _ H23) as (r2 & r3 & w2 & H2 & H3).
  destruct res; simpl in Hunset.
  - (* flavor: first block *)
    unfold blocks in H1. simpl in H1. rewrite Hunset in H1. simpl negb in H1. cbv iota in H1.
    destruct (all_one_ok _ _ _ _ H1) as [a Ha].
    destruct (resolveStep_resolves Flavor "flavor" (flavorName (_config (self w))) setFlavorId w w1 a
                ltac:(intros; split; reflexivity) Ha)
      as (results & entry & Hf & Hs & Hl & Hc).
    pose proof (all_untouched Flavor _
                  (fun p Hin => snapshotBlock_untouched Flavor w p ltac:(discriminate) Hin) w1) as U2.
    rewrite H2 in U2. simpl in U2.
    pose proof (all_untouched Flavor _
                  (fun p Hin => sshKeyBlock_untouched Flavor w p ltac:(discriminate) Hin) w2) as U3.
    rewrite H3 in U3. simpl in U3.
    destruct (untouched_trans _ _ _ _ U2 U3) as (Hs' & Hl' & Hc').
    exists results, entry. simpl in *. repeat split; congruence.
  - (* snapshot: second block *)
    pose proof (all_untouched Snapshot _
                  (fun p Hin => flavorBlock_untouched Snapshot w p ltac:(discriminate) Hin) w) as U1.
    rewrite H1 in U1. simpl in U1.
    unfold blocks in H2. simpl in H2. rewrite Hunset in H2. simpl negb in H2. cbv iota in H2.
    destruct (all_one_ok _ _ _ _ H2) as [a Ha].
    destruct (resolveStep_resolves Snapshot "snapshot" (snapshotName (_config (self w))) setSnapshotId w1 w2 a
                ltac:(intros; split; reflexivity) Ha)
      as (results & entry & Hf & Hs & Hl & Hc).
    pose proof (all_untouched Snapshot _
                  (fun p Hin => sshKeyBlock_untouched Snapshot w p ltac:(discriminate) Hin) w2) as U3.
    rewrite H3 in U3. simpl in U3.
    destruct U1 as (Hs1 & Hl1 & Hc1). destruct U3 as (Hs3 & Hl3 & Hc3).
    exists results, entry. simpl in *. repeat split; congruence.
  - (* ssh key: third block *)
    pose proof (all_untouched SshKey _
                  (fun p Hin => flavorBlock_untouched SshKey w p ltac:(discriminate) Hin) w) as U1.
    rewrite H1 in U1. simpl in U1.
    pose proof (all_untouched SshKey _
                  (fun p Hin => snapshotBlock_untouched SshKey w p ltac:(discriminate) Hin) w1) as U2.
    rewrite H2 in U2. simpl in U2.
    unfold blocks in H3. simpl in H3. rewrite Hunset in H3. simpl negb in H3. cbv iota in H3.
    destruct (all_one_ok _ _ _ _ H3) as [a Ha].
    destruct (resolveStep_resolves SshKey "sshKey" (sshKeyName (_config (self w))) setSshKeyId w2 w' a
                ltac:(intros; split; reflexivity) Ha)
      as (results & entry & Hf & Hs & Hl & Hc).
    destruct (untouched_trans _ _ _ _ U1 U2) as (Hs' & Hl' & Hc').
    exists results, entry. simpl in *. repeat split; congruence.
Qed.


Lemma createInstances_untouched (res : Resource) (count : Z) (w : World) :
  truthy (slot res (self w)) = true ->
  untouched res w (snd (createInstances v count w)).
Proof.
  intros Hset. unfold createInstances, bind.
  pose proof (describe_untouched res w) as U1.
  destruct (_describeInstances v w) as [[descs|e] w1]; simpl in U1; auto.
  destruct (limitReached _ _ _); simpl; auto.
  assert (truthy (slot res (self w1)) = true) as Hset1.
  { destruct U1 as (-> & _). exact Hset. }
  pose proof (init_untouched res w1 Hset1) as U2.
  destruct (init v w1) as [[r|e] w2]; simpl in U2.
  - assert (untouched res w2
              (snd (all (repeat (createInstance v) (Z.to_nat count)) w2))) as U3.
    { apply all_untouched. intros p Hin. apply repeat_spec in Hin. subst p.
      apply createInstance_untouched. }
    eapply untouched_trans; [exact U1|].
    eapply untouched_trans; [exact U2|exact U3].
  - eapply untouched_trans; eauto.
Qed.

Lemma createSequence_untouched (res : Resource) (counts : list Z) (w : World) :
  truthy (slot res (self w)) = true ->
  untouched res w (createSequence v counts w).
Proof.
  revert w. induction counts as [|count rest IH]; intros w Hset; simpl.
  - apply untouched_refl.
  - pose proof (createInstances_untouched res count w Hset) as U.
    eapply untouched_trans; [exact U|].
    apply IH. destruct U as (-> & _). exact Hset.
Qed.

Lemma findWhere_named (results entry : Json) (nm : string) :
  findWhere results nm = Some entry -> named nm entry = true.
Proof.
  unfold findWhere. destruct results; try discriminate; intros H;
    apply find_some in H; tauto.
Qed.

(** A successful [createInstances] has resolved every id that was
    missing when it started. *)
Lemma createInstances_resolves (res : Resource) (count : Z) (w w' : World)
  (r : list unit) :
  truthy (slot res (self w)) = false ->
  createInstances v count w = (Ok r, w') ->
  exists results entry,
    findWhere results (wanted res (_config (self w))) = Some entry /\
    slot res (self w') = entryId entry /\
    lookups res (requests w') = S (lookups res (requests w)).
Proof.
  intros Hunset. unfold createInstances, bind.
  pose proof (describe_untouched res w) as U1.
  destruct (_describeInstances v w) as [[descs|e] w1]; simpl in U1; [|discriminate].
  destruct (limitReached _ _ _); [discriminate|].
  destruct (init v w1) as [[r1|e] w2] eqn:Hinit; [|discriminate].
  intros Hcreate.
  assert (untouched res w2 w') as U3.
  { replace w' with (snd (all (repeat (createInstance v) (Z.to_nat count)) w2))
      by (now rewrite Hcreate).
    apply all_untouched. intros p Hin. apply repeat_spec in Hin. subst p.
    apply createInstance_untouched. }
  destruct U1 as (Hs1 & Hl1 & Hc1). destruct U3 as (Hs3 & Hl3 & Hc3).
  destruct (init_resolves res w1 w2 r1) as (results & entry & Hf & Hs & Hl & Hc);
    auto; [congruence|].
  exists results, entry. repeat split; congruence.
Qed.
(** The id a block stores is the one of the entry found in the answer
    the vendor gave to the block's own list request. *)
Lemma resolveStep_replied (res : Resource) (label nm : string)
  (store : JsVal -> Provider -> Provider) (w w' : World) (r : unit) :
  (forall x p, slot res (store x p) = x) ->
  resolveStep v (segment res) label nm store w = (Ok r, w') ->
  exists results entry,
    respond v (requests w) (catalogueRequest (_config (self w)) (segment res))
      = Succeeded results /\
    findWhere results nm = Some entry /\
    slot res (self w') = entryId entry.
Proof.
  intros Hstore. unfold resolveStep, getByName, bind, request. simpl.
  destruct (respond v (requests w) (catalogueRequest (_config (self w)) (segment res)))
    as [err res0|results] eqn:Hreply; simpl; [discriminate|].
  destruct (findWhere results nm) as [entry|] eqn:Hfind; simpl; [|discriminate].
  unfold update. intros [= _ <-]. exists results, entry. simpl.
  repeat split; auto.
Qed.

Lemma init_replied (res : Resource) (w w' : World) (r : list unit) :
  truthy (slot res (self w)) = false ->
  init v w = (Ok r, w') ->
  exists history results entry,
    respond v history (catalogueRequest (_config (self w)) (segment res))
      = Succeeded results /\
    findWhere results (wanted res (_config (self w))) = Some entry /\
    slot res (self w') = entryId entry.
Proof.
  intros Hunset Hrun. rewrite init_blocks in Hrun.
  destruct (all_app_ok _ _ _ _ _ Hrun) as (r1 & r23 & w1 & H1 & H23).
  destruct (all_app_ok _ _ _ _ _ H23) as (r2 & r3 & w2 & H2 & H3).
  pose proof (fun res0 Hne =>
                all_untouched res0 _
                  (fun p Hin => flavorBlock_untouched res0 w p Hne Hin) w) as U1.
  rewrite H1 in U1. simpl in U1.
  pose proof (fun res0 Hne =>
                all_untouched res0 _
                  (fun p Hin => snapshotBlock_untouched res0 w p Hne Hin) w1) as U2.
  rewrite H2 in U2. simpl in U2.
  pose proof (fun res0 Hne =>
                all_untouched res0 _
                  (fun p Hin => sshKeyBlock_untouched res0 w p Hne Hin) w2) as U3.
  rewrite H3 in U3. simpl in U3.
  destruct res; simpl in Hunset.
  - unfold blocks in H1. simpl in H1. rewrite Hunset in H1. simpl negb in H1.
    cbv iota in H1.
    destruct (all_one_ok _ _ _ _ H1) as [a Ha].
    destruct (resolveStep_replied Flavor "flavor" (flavorName (_config (self w)))
                setFlavorId w w1 a ltac:(reflexivity) Ha)
      as (results & entry & Hreply & Hf & Hs).
    destruct (U2 Flavor ltac:(discriminate)) as (Hs2 & _).
    destruct (U3 Flavor ltac:(discriminate)) as (Hs3 & _).
    exists (requests w), results, entry. simpl in *.
    repeat split; auto. congruence.
  - unfold blocks in H2. simpl in H2. rewrite Hunset in H2. simpl negb in H2.
    cbv iota in H2.
    destruct (all_one_ok _ _ _ _ H2) as [a Ha].
    destruct (resolveStep_replied Snapshot "snapshot" (snapshotName (_config (self w)))
                setSnapshotId w1 w2 a ltac:(reflexivity) Ha)
      as (results & entry & Hreply & Hf & Hs).
    destruct (U1 Snapshot ltac:(discriminate)) as (_ & _ & Hc1).
    destruct (U3 Snapshot ltac:(discriminate)) as (Hs3 & _).
    exists (requests w1), results, entry. simpl in *.
    rewrite Hc1 in Hreply. repeat split; auto. congruence.
  - unfold blocks in H3. simpl in H3. rewrite Hunset in H3. simpl negb in H3.
    cbv iota in H3.
    destruct (all_one_ok _ _ _ _ H3) as [a Ha].
    destruct (resolveStep_replied SshKey "sshKey" (sshKeyName (_config (self w)))
                setSshKeyId w2 w' a ltac:(reflexivity) Ha)
      as (results & entry & Hreply & Hf & Hs).
    destruct (U1 SshKey ltac:(discriminate)) as (_ & _ & Hc1).
    destruct (U2 SshKey ltac:(discriminate)) as (_ & _ & Hc2).
    exists (requests w2), results, entry. simpl in *.
    rewrite Hc2, Hc1 in Hreply. repeat split; auto.
Qed.

(** A successful [createInstances] holds, for every id that was missing,
    the id of the entry found in an answer of the vendor. *)
Lemma createInstances_replied (res : Resource) (count : Z) (w w' : World)
  (r : list unit) :
  truthy (slot res (self w)) = false ->
  createInstances v count w = (Ok r, w') ->
  exists history results entry,
    respond v history (catalogueRequest (_config (self w)) (segment res))
      = Succeeded results /\
    findWhere results (wanted res (_config (self w))) = Some entry /\
    slot res (self w') = entryId entry.
Proof.
  intros Hunset. unfold createInstances, bind.
  pose proof (describe_untouched res w) as U1.
  destruct (_describeInstances v w) as [[descs|e] w1]; simpl in U1; [|discriminate].
  destruct (limitReached _ _ _); [discriminate|].
  destruct (init v w1) as [[r1|e] w2] eqn:Hinit; [|discriminate].
  intros Hcreate.
  assert (untouched res w2 w') as U3.
  { replace w' with (snd (all (repeat (createInstance v) (Z.to_nat count)) w2))
      by (now rewrite Hcreate).
    apply all_untouched. intros p Hin. apply repeat_spec in Hin. subst p.
    apply createInstance_untouched. }
  destruct U1 as (Hs1 & Hl1 & Hc1). destruct U3 as (Hs3 & Hl3 & Hc3).
  destruct (init_replied res w1 w2 r1) as (h & results & entry & Hreply & Hf & Hs);
    auto; [congruence|].
  rewrite Hc1 in Hreply, Hf.
  exists h, results, entry. repeat split; auto. congruence.
Qed.
End Resolution.

(** C7: take a vendor whose list entries under the configured name of
    a resource (flavor, snapshot or ssh key) carry an id, a truthy
    value, and a successful [createInstances].  If the id was missing
    before, this call sent one list request for the resource and stored
    the id of the first entry whose name is exactly the configured one,
    taken from an answer of the vendor; if it was there, the call sent
    none and kept it.  Either way the provider holds the id afterwards,
    and every later call, whatever its count and outcome, keeps it and
    sends no list request for the resource: over the whole sequence the
    resource is looked up at most once. *)
Theorem ids_resolved_once (v : Vendor) (res : Resource) (count : Z)
  (counts : list Z) (w w1 : World) (r : list unit) :
  createInstances v count w = (Ok r, w1) ->
  (forall history results entry,
     respond v history (catalogueRequest (_config (self w)) (segment res))
       = Succeeded results ->
     findWhere results (wanted res (_config (self w))) = Some entry ->
     truthy (entryId entry) = true) ->
  (truthy (slot res (self w)) = false ->
   exists history results entry,
     respond v history (catalogueRequest (_config (self w)) (segment res))
       = Succeeded results /\
     findWhere results (wanted res (_config (self w))) = Some entry /\
     named (wanted res (_config (self w))) entry = true /\
     slot res (self w1) = entryId entry /\
     lookups res (requests w1) = S (lookups res (requests w))) /\
  (truthy (slot res (self w)) = true ->
   slot res (self w1) = slot res (self w) /\
   lookups res (requests w1) = lookups res (requests w)) /\
  truthy (slot res (self w1)) = true /\
  slot res (self (createSequence v counts w1)) = slot res (self w1) /\
  lookups res (requests (createSequence v counts w1)) = lookups res (requests w1) /\
  (lookups res (requests (createSequence v counts w1))
   <= S (lookups res (requests w)))%nat.
Proof.
  intros Hcall Hvendor.
  assert (truthy (slot res (self w1)) = true) as Hset.
  { destruct (truthy (slot res (self w))) eqn:Hbefore.
    - pose proof (createInstances_untouched v res count w Hbefore) as U.
      rewrite Hcall in U. destruct U as (U & _). simpl in U. congruence.
    - destruct (createInstances_replied v res count w w1 r Hbefore Hcall)
        as (h & results & entry & Hreply & Hf & ->).
      eapply Hvendor; eauto. }
  destruct (createSequence_untouched v res counts w1 Hset) as (Hs & Hl & _).
  assert (lookups res (requests w1) <= S (lookups res (requests w)))%nat as Hle.
  { destruct (truthy (slot res (self w))) eqn:Hbefore.
    - pose proof (createInstances_untouched v res count w Hbefore) as U.
      rewrite Hcall in U. destruct U as (_ & U & _). simpl in U. lia.
    - destruct (createInstances_resolves v res count w w1 r Hbefore Hcall)
        as (_ & _ & _ & _ & U). lia. }
  split; [|split; [|split; [|split; [|split]]]].
  - intros Hbefore.
    destruct (createInstances_replied v res count w w1 r Hbefore Hcall)
      as (h & results & entry & Hreply & Hf & Hid).
    destruct (createInstances_resolves v res count w w1 r Hbefore Hcall)
      as (_ & _ & _ & _ & Hn).
    exists h, results, entry. repeat split; auto.
    eapply findWhere_named; eauto.
  - intros Hbefore.
    pose proof (createInstances_untouched v res count w Hbefore) as U.
    rewrite Hcall in U. destruct U as (U1 & U2 & _). auto.
  - exact Hset.
  - exact Hs.
  - exact Hl.
  - lia.
Qed.

Lemma ids_resolved_once_witness :
  slot Flavor (self (snd (createInstances (Sample.vendor [Sample.active]) 1
                            Sample.world)))
    = JJson (JStr "F-1") /\
  slot Flavor (self (createSequence (Sample.vendor [Sample.active]) [2; 0; 1]
                       (snd (createInstances (Sample.vendor [Sample.active]) 1
                               Sample.world))))
    = JJson (JStr "F-1") /\
  lookups Flavor
    (requests (createSequence (Sample.vendor [Sample.active]) [2; 0; 1]
                 (snd (createInstances (Sample.vendor [Sample.active]) 1
                         Sample.world)))) = 1%nat.
Proof.
  assert (forall history results entry,
            respond (Sample.vendor [Sample.active]) history
              (catalogueRequest (_config (self Sample.world)) (segment Flavor))
              = Succeeded results ->
            findWhere results (wanted Flavor (_config (self Sample.world)))
              = Some entry ->
            truthy (entryId entry) = true) as Hvendor.
  { intros history results entry Hreply Hfind.
    simpl in Hreply. injection Hreply as <-.
    vm_compute in Hfind. injection Hfind as <-. reflexivity. }
  destruct (ids_resolved_once (Sample.vendor [Sample.active]) Flavor 1 [2; 0; 1]
              Sample.world
              (snd (createInstances (Sample.vendor [Sample.active]) 1 Sample.world))
              [tt] eq_refl Hvendor) as (_ & _ & _ & Hid & Hcount & _).
  split; [reflexivity|]. split.
  - rewrite Hid. reflexivity.
  - rewrite Hcount. reflexivity.
Defined.

(** * Further properties of the provider *)

(** ** The listing as a whole *)

Section ListingMore.

Context {A B : Type}.

Lemma mapR_In_fwd (f : A -> Result B) (l : list A) (ys : list B) (x : A) :
  mapR f l = Ok ys -> In x l -> exists y, f x = Ok y /\ In y ys.
Proof.
  revert ys. induction l as [|a r IH]; simpl; intros ys H Hin; [tauto|].
  destruct (f a) as [b|] eqn:Ef; simpl in H; [|discriminate].
  destruct (mapR f r) as [bs|] eqn:Er; simpl in H; [|discriminate].
  injection H as <-. destruct Hin as [->|Hin].
  - exists b. simpl. auto.
  - destruct (IH bs eq_refl Hin) as [y [Hy Hin']]. exists y. simpl. auto.
Qed.

Lemma mapR_throws (f : A -> Result B) (l : list A) (x : A) (e : Thrown) :
  In x l -> f x = Throw e -> exists e', mapR f l = Throw e'.
Proof.
  induction l as [|a r IH]; simpl; intros Hin Hx; [tauto|].
  destruct Hin as [->|Hin].
  - rewrite Hx. simpl. eauto.
  - destruct (f a); simpl; eauto.
    destruct (IH Hin Hx) as [e' ->]. simpl. eauto.
Qed.

(** A filter that reads through a map counts the same elements. *)
Lemma mapR_filter_length (f : A -> Result B) (p : A -> bool) (q : B -> bool)
  (l : list A) (ys : list B) :
  (forall x y, f x = Ok y -> q y = p x) ->
  mapR f l = Ok ys ->
  length (filter q ys) = length (filter p l).
Proof.
  intros Hpq. revert ys. induction l as [|a r IH]; simpl; intros ys H.
  - injection H as <-. reflexivity.
  - destruct (f a) as [b|] eqn:Ef; simpl in H; [|discriminate].
    destruct (mapR f r) as [bs|] eqn:Er; simpl in H; [|discriminate].
    injection H as <-. simpl. rewrite (Hpq a b Ef).
    destruct (p a); simpl; rewrite (IH bs eq_refl); reflexivity.
Qed.

End ListingMore.

Section FilterMore.

Context {A : Type}.

Lemma filterR_In_fwd (p : A -> Result bool) (l ys : list A) (y : A) :
  filterR p l = Ok ys -> In y l -> p y = Ok true -> In y ys.
Proof.
  revert ys. induction l as [|a r IH]; simpl; intros ys H Hin Hp; [tauto|].
  destruct (p a) as [b|] eqn:Ea; simpl in H; [|discriminate].
  destruct (filterR p r) as [bs|] eqn:Er; simpl in H; [|discriminate].
  injection H as <-. destruct Hin as [->|Hin].
  - rewrite Hp in Ea. injection Ea as <-. simpl. auto.
  - destruct b; simpl; auto.
Qed.

Lemma filterR_length (p : A -> Result bool) (l ys : list A) :
  filterR p l = Ok ys -> (length ys <= length l)%nat.
Proof.
  revert ys. induction l as [|a r IH]; simpl; intros ys H.
  - injection H as <-. simpl. lia.
  - destruct (p a) as [b|]; simpl in H; [|discriminate].
    destruct (filterR p r) as [bs|] eqn:Er; simpl in H; [|discriminate].
    injection H as <-. specialize (IH bs eq_refl).
    destruct b; simpl; lia.
Qed.

Lemma filterR_throws (p : A -> Result bool) (l : list A) (x : A) (e : Thrown) :
  In x l -> p x = Throw e -> exists e', filterR p l = Throw e'.
Proof.
  induction l as [|a r IH]; simpl; intros Hin Hx; [tauto|].
  destruct Hin as [->|Hin].
  - rewrite Hx. simpl. eauto.
  - destruct (p a); simpl; eauto.
    destruct (IH Hin Hx) as [e' ->]. simpl. eauto.
Qed.

End FilterMore.

(** X1: whatever the vendor answers and whatever the pipeline makes of
    it, [getModels] sends one request, the GET of the instance list
    scoped by service and region, and leaves the provider and its cached
    ids as they were; when the vendor fails the call, the promise is
    rejected with the vendor's error value itself and no error-level
    line is logged. *)
Theorem getModels_one_request (v : Vendor) (w : World) :
  requests (snd (getModels v w))
    = (requests w ++ [describeRequest (_config (self w))])%list /\
  self (snd (getModels v w)) = self w /\
  (forall err results,
     instances v (requests w) = Failed err results ->
     fst (getModels v w) = Throw (Reason err) /\
     logs (snd (getModels v w)) = logs w) /\
  (forall e, fst (getModels v w) = Throw e -> logs (snd (getModels v w)) = logs w).
Proof.
  unfold getModels, bind, _describeInstances.
  destruct (instances v (requests w)) as [err res|descs].
  - simpl. split; [reflexivity|]. split; [reflexivity|]. split; [|reflexivity].
    intros err' res' [= <- _]. auto.
  - destruct (normalize _ _ descs) as [[models lg]|e]; simpl;
      (split; [reflexivity|]); (split; [reflexivity|]);
      (split; [discriminate|]); intros e' He'; try discriminate; reflexivity.
Qed.

(** X2: a listing leaves nothing out.  When [getModels] succeeds, every
    listed descriptor whose status is not DELETING and whose name is a
    non-empty string starting with the configured prefix has a model in
    the output, carrying its summary, its vendor id as [id] and the
    provider name. *)
Theorem listing_complete (v : Vendor) (w w' : World)
  (models : list InstanceModel) (descs : list RawInstanceDescriptor)
  (d : RawInstanceDescriptor) (nm : string) :
  getModels v w = (Ok models, w') ->
  instances v (requests w) = Succeeded descs ->
  In d descs ->
  is_str (rawStatus d) ST_DELETING = false ->
  rawName d = JJson (JStr nm) -> nm <> "" ->
  String.prefix (name (_config (self w))) nm = true ->
  exists m,
    In m models /\ summarizeOne d = Ok (providerOpts m) /\
    id m = rawId d /\ providerName m = "ovhcloud".
Proof.
  intros Hget Hlist Hin Hst Hname Hne Hpre.
  destruct (getModels_normalize _ _ v w w' models eq_refl eq_refl Hget)
    as (descs' & lg & Hd & Hn & _).
  rewrite Hlist in Hd. injection Hd as <-.
  unfold normalize, summarizeInfo, excludeOutscope, excludeTerminated in Hn.
  destruct (mapR summarizeOne descs) as [ss|] eqn:Hs; simpl in Hn; [|discriminate].
  destruct (filterR _ _) as [kept|] eqn:Hk; simpl in Hn; [|discriminate].
  injection Hn as Hm _.
  destruct (mapR_In_fwd _ _ _ _ Hs Hin) as [s [Hsum Hins]].
  destruct (summarizeOne_reads d s Hsum) as (Hid & Hstat & Hnm & _).
  assert (In s kept) as Hkept.
  { eapply filterR_In_fwd; eauto.
    - apply filter_In. split; auto. unfold notDeleting.
      rewrite Hstat, Hst. reflexivity.
    - unfold inScope. rewrite Hnm, Hname. simpl.
      destruct (String.eqb_spec nm "") as [|_]; [contradiction|]. simpl.
      now rewrite indexOf_zero_prefix, Hpre. }
  exists (fst (toModel (_instancePort (self w)) s)).
  rewrite toModel_providerOpts. repeat split; auto.
  - rewrite <- Hm. rewrite map_map. apply in_map_iff. exists s. auto.
  - unfold toModel. destruct (convertStatus _). simpl. exact Hid.
  - unfold toModel. destruct (convertStatus _). reflexivity.
Qed.

Lemma listing_complete_witness :
  exists m,
    In m [Sample.activeModel; Sample.buildingModel] /\
    summarizeOne Sample.building = Ok (providerOpts m) /\
    id m = rawId Sample.building /\ providerName m = "ovhcloud".
Proof.
  apply (listing_complete
           (Sample.vendor [Sample.active; Sample.deleting; Sample.building])
           Sample.world
           (snd (getModels (Sample.vendor [Sample.active; Sample.deleting; Sample.building])
                           Sample.world))
           [Sample.activeModel; Sample.buildingModel]
           [Sample.active; Sample.deleting; Sample.building]
           Sample.building "pool-a-4").
  - reflexivity.
  - reflexivity.
  - simpl. auto.
  - reflexivity.
  - reflexivity.
  - discriminate.
  - reflexivity.
Defined.

(** X4: no partial listing.  If summarizing one listed descriptor throws
    (a first address entry that is [null]), or one that is not DELETING
    has a name on which [indexOf] cannot be called (a number, [true], an
    object), the whole of [getModels] is rejected: no models, no
    error-level line logged. *)
Theorem listing_all_or_nothing (v : Vendor) (w : World)
  (descs : list RawInstanceDescriptor) (d : RawInstanceDescriptor) (e0 : Thrown) :
  instances v (requests w) = Succeeded descs ->
  In d descs ->
  summarizeOne d = Throw e0 \/
  (exists s, summarizeOne d = Ok s /\ notDeleting s = true /\
             inScope (name (_config (self w))) s = Throw e0) ->
  exists e,
    getModels v w = (Throw e, issue (describeRequest (_config (self w))) w).
Proof.
  intros Hlist Hin Hbad.
  unfold getModels, bind, _describeInstances. rewrite Hlist.
  unfold normalize, summarizeInfo, excludeOutscope, excludeTerminated.
  destruct Hbad as [Hsum|(s & Hsum & Hnd & Hsc)].
  - destruct (mapR_throws _ _ _ _ Hin Hsum) as [e ->]. simpl.
    exists e. reflexivity.
  - destruct (mapR summarizeOne descs) as [ss|e] eqn:Hs; simpl;
      [|exists e; reflexivity].
    destruct (mapR_In_fwd _ _ _ _ Hs Hin) as [s' [Hs' Hins]].
    rewrite Hsum in Hs'. injection Hs' as <-.
    assert (In s (filter notDeleting ss)) as Hf by (apply filter_In; auto).
    destruct (filterR_throws _ _ _ _ Hf Hsc) as [e ->]. simpl.
    exists e. reflexivity.
Qed.

Lemma listing_all_or_nothing_witness :
  exists e,
    getModels (Sample.vendor [Sample.active; Sample.numbered]) Sample.world
    = (Throw e, issue (describeRequest Sample.config) Sample.world).
Proof.
  apply (listing_all_or_nothing
           (Sample.vendor [Sample.active; Sample.numbered]) Sample.world
           [Sample.active; Sample.numbered] Sample.numbered
           (TypeError "indexOf is not a function")).
  - reflexivity.
  - simpl. auto.
  - right. eexists. split; [reflexivity|]. split; reflexivity.
Defined.

(** ** The requests of a creation *)

Section Creation.

Variable v : Vendor.

Lemma all_cons_world {A} (p : M A) (ps : list (M A)) (w : World) :
  snd (all (p :: ps) w) = snd (all ps (snd (p w))).
Proof.
  simpl. destruct (p w) as [x w1]. simpl.
  destruct (all ps w1) as [xs w2]. reflexivity.
Qed.

(** A rejection of [Promise.all] is the rejection of one of its
    promises. *)
Lemma all_throws_from {A} (ps : list (M A)) (w : World) (e : Thrown) :
  fst (all ps w) = Throw e ->
  exists p w0, In p ps /\ fst (p w0) = Throw e.
Proof.
  revert w. induction ps as [|p r IH]; intros w; simpl; [discriminate|].
  destruct (p w) as [x w1] eqn:Hp.
  destruct (all r w1) as [xs w2] eqn:Hr. simpl.
  destruct x as [a|e1].
  - destruct xs as [l|e2]; [discriminate|].
    intros [= <-].
    destruct (IH w1) as (q & w0 & Hq & Hthrow); [now rewrite Hr|].
    exists q, w0. auto.
  - intros [= <-]. exists p, w. rewrite Hp. auto.
Qed.

Lemma all_ok_length {A} (ps : list (M A)) (w : World) (r : list A) :
  fst (all ps w) = Ok r -> length r = length ps.
Proof.
  revert w r. induction ps as [|p ps IH]; intros w r; simpl.
  - intros [= <-]. reflexivity.
  - destruct (p w) as [x w1]. destruct (all ps w1) as [xs w2] eqn:Hr. simpl.
    destruct x as [a|e]; [|discriminate].
    destruct xs as [l|e]; [|discriminate].
    intros [= <-]. simpl. f_equal. apply (IH w1). now rewrite Hr.
Qed.

Lemma createInstance_world (w : World) :
  snd (createInstance v w) = issue (createRequest (self w)) w.
Proof.
  unfold createInstance, bind, request.
  destruct (respond v (requests w) _); reflexivity.
Qed.

(** The creation loop sends [n] copies of one request and touches
    nothing else. *)
Lemma creates_world (n : nat) (w : World) :
  snd (all (repeat (createInstance v) n) w)
  = issueAll (repeat (createRequest (self w)) n) w.
Proof.
  revert w. induction n as [|n IH]; intros w.
  - simpl. unfold issueAll. rewrite app_nil_r. now destruct w.
  - cbn [repeat]. rewrite all_cons_world, createInstance_world, IH.
    unfold issueAll, issue. simpl. now rewrite <- app_assoc.
Qed.

Lemma resolveStep_world (kind label nm : string)
  (store : JsVal -> Provider -> Provider) (w : World) :
  (forall x p, _config (store x p) = _config p) ->
  requests (snd (resolveStep v kind label nm store w))
    = (requests w ++ [catalogueRequest (_config (self w)) kind])%list /\
  _config (self (snd (resolveStep v kind label nm store w))) = _config (self w) /\
  logs (snd (resolveStep v kind label nm store w)) = logs w.
Proof.
  intros Hstore.
  destruct (resolveStep_cases v kind label nm store w)
    as [[e ->]|(results & entry & _ & ->)]; simpl; auto.
Qed.

Lemma all_app_world {A} (ps qs : list (M A)) (w : World) :
  snd (all (ps ++ qs) w) = snd (all qs (snd (all ps w))).
Proof.
  revert w. induction ps as [|p ps IH]; intros w.
  - reflexivity.
  - rewrite <- app_comm_cons, !all_cons_world. apply IH.
Qed.

(** One optional block of [init]. *)
Lemma block_world (missing : bool) (kind label nm : string)
  (store : JsVal -> Provider -> Provider) (w : World) :
  (forall x p, _config (store x p) = _config p) ->
  let w' := snd (all (if missing then [resolveStep v kind label nm store] else []) w) in
  requests w'
    = (requests w ++ if missing then [catalogueRequest (_config (self w)) kind]
                     else [])%list /\
  _config (self w') = _config (self w) /\
  logs w' = logs w.
Proof.
  intros Hstore. destruct missing; cbn zeta.
  - rewrite all_cons_world. cbn [all snd].
    apply resolveStep_world. exact Hstore.
  - simpl. rewrite app_nil_r. auto.
Qed.

(** What [init] sends does not depend on how the lookups end. *)
Lemma init_world (w : World) :
  requests (snd (init v w)) = (requests w ++ initRequests (self w))%list /\
  _config (self (snd (init v w))) = _config (self w) /\
  logs (snd (init v w)) = logs w.
Proof.
  rewrite init_blocks. unfold blocks. cbn [fst snd].
  rewrite !all_app_world.
  destruct (block_world (negb (truthy (_flavorId (self w)))) "flavor" "flavor"
              (flavorName (_config (self w))) setFlavorId w
              ltac:(reflexivity)) as (R1 & C1 & L1).
  set (w1 := snd (all (if negb (truthy (_flavorId (self w))) then _ else _) w)) in *.
  destruct (block_world (negb (truthy (_snapshotId (self w)))) "snapshot" "snapshot"
              (snapshotName (_config (self w))) setSnapshotId w1
              ltac:(reflexivity)) as (R2 & C2 & L2).
  set (w2 := snd (all (if negb (truthy (_snapshotId (self w))) then _ else _) w1)) in *.
  destruct (block_world (negb (truthy (_sshKeyId (self w)))) "sshkey" "sshKey"
              (sshKeyName (_config (self w))) setSshKeyId w2
              ltac:(reflexivity)) as (R3 & C3 & L3).
  set (w3 := snd (all (if negb (truthy (_sshKeyId (self w))) then _ else _) w2)) in *.
  repeat split; try congruence.
  rewrite R3, R2, R1, C2, C1. unfold initRequests.
  rewrite <- !app_assoc.
  destruct (truthy (_flavorId (self w))), (truthy (_snapshotId (self w))),
    (truthy (_sshKeyId (self w))); reflexivity.
Qed.


Lemma all_ok_each {A} (Inv : World -> Prop) (ps : list (M A)) :
  (forall p, In p ps -> forall w0, Inv w0 -> Inv (snd (p w0))) ->
  forall w r w', Inv w -> all ps w = (Ok r, w') ->
  forall p, In p ps -> exists w0 a, Inv w0 /\ fst (p w0) = Ok a.
Proof.
  induction ps as [|q ps IH]; intros Hpres w r w' Hinv Hall p Hin; [destruct Hin|].
  simpl in Hall.
  pose proof (Hpres q (or_introl eq_refl) w Hinv) as Hq.
  destruct (q w) as [x w1] eqn:Eq. simpl in Hq.
  destruct (all ps w1) as [xs w2] eqn:Er.
  destruct x as [a|e]; [|discriminate].
  destruct xs as [l|e]; [|discriminate].
  destruct Hin as [<-|Hin].
  - exists w, a. rewrite Eq. auto.
  - eapply (IH (fun p0 H0 => Hpres p0 (or_intror H0)) w1); eauto.
Qed.

Lemma resolveStep_ok_reply (kind label nm : string)
  (store : JsVal -> Provider -> Provider) (w : World) (a : unit) :
  fst (resolveStep v kind label nm store w) = Ok a ->
  exists results entry,
    respond v (requests w) (catalogueRequest (_config (self w)) kind)
      = Succeeded results /\
    findWhere results nm = Some entry.
Proof.
  unfold resolveStep, getByName, bind, request. simpl.
  destruct (respond v (requests w) (catalogueRequest (_config (self w)) kind))
    as [err res|res] eqn:Hreply; simpl; [discriminate|].
  destruct (findWhere res nm) as [entry|] eqn:Hfind; simpl; [|discriminate].
  intros _. exists res, entry. split; [reflexivity|exact Hfind].
Qed.

Lemma resolveStep_throw_kind (kind label nm : string)
  (store : JsVal -> Provider -> Provider) (w : World) (e : Thrown) :
  fst (resolveStep v kind label nm store w) = Throw e -> requestError e = true.
Proof.
  unfold resolveStep, getByName, bind, request. simpl.
  destruct (respond v (requests w) _) as [err res|res]; simpl.
  - intros [= <-]. reflexivity.
  - destruct (findWhere res nm); simpl; [discriminate|].
    intros [= <-]. reflexivity.
Qed.

Lemma createInstance_throw_kind (w : World) (e : Thrown) :
  fst (createInstance v w) = Throw e -> requestError e = true.
Proof.
  unfold createInstance, bind, request.
  destruct (respond v (requests w) _); simpl; [|discriminate].
  intros [= <-]. reflexivity.
Qed.

Lemma blocks_In (w : World) (p : M unit) :
  In p (fst (fst (blocks v w)) ++ snd (fst (blocks v w)) ++ snd (blocks v w))%list ->
  exists kind label nm store,
    p = resolveStep v kind label nm store /\
    (forall x q, _config (store x q) = _config q).
Proof.
  unfold blocks. cbn [fst snd]. rewrite !in_app_iff.
  intros [H|[H|H]];
    match type of H with
    | In _ (if ?b then _ else _) => destruct b
    end; simpl in H; try tauto; destruct H as [<-|[]];
    do 4 eexists; split; reflexivity.
Qed.

Lemma init_throw_kind (w : World) (e : Thrown) :
  fst (init v w) = Throw e -> requestError e = true.
Proof.
  rewrite init_blocks. intros H.
  destruct (all_throws_from _ _ _ H) as (p & w0 & Hin & Hthrow).
  destruct (blocks_In w p Hin) as (kind & label & nm & store & -> & _).
  eapply resolveStep_throw_kind; eauto.
Qed.

Lemma countSent_app (meth pth : string) (l1 l2 : list Request) :
  countSent meth pth (l1 ++ l2) = (countSent meth pth l1 + countSent meth pth l2)%nat.
Proof. unfold countSent. now rewrite filter_app, length_app. Qed.

Lemma initRequests_no_post (p : Provider) :
  countSent "POST" instancePath (initRequests p) = 0%nat.
Proof.
  unfold initRequests.
  destruct (truthy (_flavorId p)), (truthy (_snapshotId p)),
    (truthy (_sshKeyId p)); reflexivity.
Qed.

Lemma creates_posts (p : Provider) (n : nat) :
  countSent "POST" instancePath (repeat (createRequest p) n) = n.
Proof.
  induction n as [|n IH]; [reflexivity|].
  cbn [repeat]. change (createRequest p :: repeat (createRequest p) n)
    with ([createRequest p] ++ repeat (createRequest p) n)%list.
  rewrite countSent_app, IH. reflexivity.
Qed.

End Creation.

(** The requests of a call that got past the cap: the listing, the
    lookups of the missing ids, then the creations unless [init]
    failed. *)
Lemma creation_trace (v : Vendor) (w : World) (count : Z)
  (descs : list RawInstanceDescriptor) :
  instances v (requests w) = Succeeded descs ->
  limitReached (_config (self w)) (actualCount descs) count = false ->
  let w' := snd (createInstances v count w) in
  exists rest,
    requests w'
    = (requests w ++ [describeRequest (_config (self w))]
         ++ initRequests (self w) ++ rest)%list /\
    _config (self w') = _config (self w) /\
    (rest = [] \/ rest = repeat (createRequest (self w')) (Z.to_nat count)) /\
    (forall r, fst (createInstances v count w) = Ok r ->
       rest = repeat (createRequest (self w')) (Z.to_nat count) /\
       length r = Z.to_nat count) /\
    (forall e, fst (createInstances v count w) = Throw e -> requestError e = true).
Proof.
  intros Hlist Hlimit. unfold createInstances, bind, _describeInstances.
  rewrite Hlist, Hlimit.
  set (w1 := issue (describeRequest (_config (self w))) w).
  destruct (init_world v w1) as (Hreq & Hcfg & _).
  pose proof (init_throw_kind v w1) as Hkind.
  destruct (init v w1) as [[r1|e] w2] eqn:Hinit; simpl in Hreq, Hcfg, Hkind.
  - pose proof (creates_world v (Z.to_nat count) w2) as Hc.
    pose proof (all_ok_length (repeat (createInstance v) (Z.to_nat count)) w2) as Hlen.
    pose proof (all_throws_from (repeat (createInstance v) (Z.to_nat count)) w2) as Hthrow.
    destruct (all (repeat (createInstance v) (Z.to_nat count)) w2) as [x w3].
    simpl in Hc, Hlen, Hthrow. subst w3. cbn zeta. simpl.
    exists (repeat (createRequest (self w2)) (Z.to_nat count)).
    split; [|split; [|split; [|split]]].
    + rewrite Hreq. unfold w1. simpl. now rewrite <- !app_assoc.
    + exact Hcfg.
    + auto.
    + intros r Hr. split; auto. rewrite (Hlen r Hr). apply repeat_length.
    + intros e He. destruct (Hthrow e He) as (p & w0 & Hin & Hp).
      apply repeat_spec in Hin. subst p.
      eapply createInstance_throw_kind; eauto.
  - cbn zeta. simpl. exists []. split; [|split; [|split; [|split]]].
    + rewrite Hreq. unfold w1. simpl. now rewrite <- !app_assoc, app_nil_r.
    + exact Hcfg.
    + auto.
    + discriminate.
    + intros e' [= <-]. auto.
Qed.

(** ** The cap and the listing *)

(** The cap check of [createInstances]: with a cap other than zero, the
    call ends in the limit branch exactly when the instances counted
    plus [count] are above the cap. *)
Lemma limit_refusal (v : Vendor) (w : World) (count : Z)
  (descs : list RawInstanceDescriptor) (cap : Z) :
  instances v (requests w) = Succeeded descs ->
  maxRunningInstances (_config (self w)) = Some cap -> cap <> 0 ->
  forall counted, actualCount descs = counted ->
  (fst (createInstances v count w) = Throw (ReferenceError "reject") <->
   cap < counted + count).
Proof.
  intros Hlist Hcap Hnz counted <-.
  destruct (limitReached (_config (self w)) (actualCount descs) count) eqn:Hlimit.
  - assert (cap < actualCount descs + count) as Hlt.
    { unfold limitReached in Hlimit. rewrite Hcap in Hlimit.
      apply andb_true_iff in Hlimit. now apply Z.ltb_lt. }
    split; [auto|]. intros _.
    unfold createInstances, bind, _describeInstances.
    rewrite Hlist, Hlimit. reflexivity.
  - assert (~ cap < actualCount descs + count) as Hge.
    { unfold limitReached in Hlimit. rewrite Hcap in Hlimit. simpl in Hlimit.
      destruct (Z.eqb_spec cap 0) as [|_]; [contradiction|]. simpl in Hlimit.
      now apply Z.ltb_ge in Hlimit; lia. }
    split; [|tauto]. intros Hthrow.
    destruct (creation_trace v w count descs Hlist Hlimit)
      as (_ & _ & _ & _ & _ & Hkind).
    specialize (Hkind _ Hthrow). discriminate.
Qed.

(** C3: a descriptor whose status is DELETING is behind no model of a
    listing (the listing is the one of the other descriptors, and no
    listed model has the status DELETING), and it does not count in the
    cap check of [createInstances]: for every count, the call settles,
    sends and leaves the provider as it does when the vendor's list is
    without that descriptor, the number held against the cap being the
    same. *)
Theorem deleting_excluded (v : Vendor) (w w' : World)
  (l1 l2 : list RawInstanceDescriptor) (d : RawInstanceDescriptor)
  (models : list InstanceModel) :
  is_str (rawStatus d) ST_DELETING = true ->
  instances v (requests w) = Succeeded (l1 ++ d :: l2)%list ->
  (getModels v w = (Ok models, w') ->
     (forall m, In m models ->
        summarizeOne d <> Ok (providerOpts m) /\
        is_str (get (providerOpts m) "status") ST_DELETING = false) /\
     exists lg,
       normalize (_config (self w)) (_instancePort (self w)) (l1 ++ l2)
         = Ok (models, lg)) /\
  actualCount (l1 ++ d :: l2) = actualCount (l1 ++ l2) /\
  (forall count,
     createInstances v count w
     = createInstances (withInstances v (l1 ++ l2)) count w) /\
  (forall count cap,
     maxRunningInstances (_config (self w)) = Some cap -> cap <> 0 ->
     (fst (createInstances v count w) = Throw (ReferenceError "reject") <->
      cap < actualCount (l1 ++ l2) + count)).
Proof.
  intros Hdel Hlist.
  assert (actualCount (l1 ++ d :: l2) = actualCount (l1 ++ l2)) as Hcount.
  { unfold actualCount. rewrite !filter_app. simpl.
    unfold notDeleting at 2. fold (rawStatus d). rewrite Hdel. reflexivity. }
  assert (forall count,
            createInstances v count w
            = createInstances (withInstances v (l1 ++ l2)) count w) as Hsame.
  { intros count. unfold createInstances, bind, _describeInstances.
    rewrite Hlist. simpl. rewrite Hcount. reflexivity. }
  split; [|split; [exact Hcount|split; [exact Hsame|]]].
  - intros Hget.
    assert (forall s, summarizeOne d = Ok s ->
              notDeleting s = false \/
              inScope (name (_config (self w))) s <> Ok true) as Hdrop.
    { intros s Hs. left. unfold notDeleting.
      destruct (summarizeOne_reads d s Hs) as (_ & -> & _).
      now rewrite Hdel. }
    destruct (dropped_never_listed v w w' l1 l2 d models Hlist Hdrop Hget)
      as [Hnever Hsame'].
    split; auto.
    intros m Hin. split; auto.
    destruct (getModels_normalize _ _ v w w' models eq_refl eq_refl Hget)
      as (descs & lg & _ & Hn & _).
    destruct (normalize_In _ _ _ _ _ _ Hn Hin) as (_ & _ & _ & Hnd & _).
    unfold notDeleting in Hnd. now apply negb_true_iff in Hnd.
  - intros count cap Hcap Hnz.
    apply (limit_refusal v w count (l1 ++ d :: l2) cap Hlist Hcap Hnz
             (actualCount (l1 ++ l2)) Hcount).
Qed.

Lemma deleting_excluded_witness :
  ((forall m, In m [Sample.activeModel] ->
      summarizeOne Sample.deleting <> Ok (providerOpts m) /\
      is_str (get (providerOpts m) "status") ST_DELETING = false) /\
   exists lg,
     normalize Sample.config 3128 ([Sample.active] ++ [Sample.other])
       = Ok ([Sample.activeModel], lg)) /\
  actualCount ([Sample.active] ++ Sample.deleting :: [Sample.other])
    = actualCount ([Sample.active] ++ [Sample.other]) /\
  createInstances
    (Sample.vendor [Sample.active; Sample.deleting; Sample.other]) 3 Sample.world
  = createInstances
      (withInstances
         (Sample.vendor [Sample.active; Sample.deleting; Sample.other])
         ([Sample.active] ++ [Sample.other])) 3 Sample.world /\
  fst (createInstances
         (Sample.vendor [Sample.active; Sample.deleting; Sample.other]) 3
         Sample.world) <> Throw (ReferenceError "reject") /\
  fst (createInstances
         (Sample.vendor [Sample.active; Sample.deleting; Sample.other]) 4
         Sample.world) = Throw (ReferenceError "reject").
Proof.
  destruct (deleting_excluded
              (Sample.vendor [Sample.active; Sample.deleting; Sample.other])
              Sample.world
              (snd (getModels (Sample.vendor [Sample.active; Sample.deleting; Sample.other])
                              Sample.world))
              [Sample.active] [Sample.other] Sample.deleting [Sample.activeModel]
              eq_refl eq_refl) as (Hlisting & Hcount & Hsame & Hcap).
  split; [|split; [|split; [|split]]].
  - apply Hlisting. reflexivity.
  - exact Hcount.
  - apply Hsame.
  - intros Hrefused.
    apply (Hcap 3 5 eq_refl ltac:(discriminate)) in Hrefused.
    vm_compute in Hrefused. discriminate.
  - apply (Hcap 4 5 eq_refl ltac:(discriminate)). vm_compute. reflexivity.
Defined.

(** X3: the number [createInstances] holds against the cap is never
    below the number of models [getModels] lists from the same vendor
    answer: it takes every instance that is not DELETING, of whatever
    name, the listing only those of the pool.  With a cap other than
    zero, the call ends in the limit branch exactly when that number
    plus [count] is above the cap; so it does, after the listing
    request alone, whenever the models listed plus [count] are. *)
Theorem listing_at_most_counted (v : Vendor) (w w' : World)
  (models : list InstanceModel) (descs : list RawInstanceDescriptor) :
  getModels v w = (Ok models, w') ->
  instances v (requests w) = Succeeded descs ->
  Z.of_nat (length models) <= actualCount descs /\
  (forall count cap,
     maxRunningInstances (_config (self w)) = Some cap -> cap <> 0 ->
     (fst (createInstances v count w) = Throw (ReferenceError "reject") <->
      cap < actualCount descs + count) /\
     (cap < Z.of_nat (length models) + count ->
      createInstances v count w
      = (Throw (ReferenceError "reject"),
         issue (describeRequest (_config (self w))) w))).
Proof.
  intros Hget Hlist.
  assert (Z.of_nat (length models) <= actualCount descs) as Hle.
  { destruct (getModels_normalize _ _ v w w' models eq_refl eq_refl Hget)
      as (descs' & lg & Hd & Hn & _).
    rewrite Hlist in Hd. injection Hd as <-.
    unfold normalize, summarizeInfo, excludeOutscope, excludeTerminated in Hn.
    destruct (mapR summarizeOne descs) as [ss|] eqn:Hs; simpl in Hn; [|discriminate].
    destruct (filterR _ _) as [kept|] eqn:Hk; simpl in Hn; [|discriminate].
    injection Hn as Hm _. rewrite <- Hm, !length_map.
    apply filterR_length in Hk.
    unfold actualCount.
    rewrite <- (mapR_filter_length summarizeOne
                  (fun instance => notDeleting (payload instance)) notDeleting
                  descs ss); [lia| |exact Hs].
    intros x y Hxy. unfold notDeleting.
    destruct (summarizeOne_reads x y Hxy) as (_ & -> & _). reflexivity. }
  split; [exact Hle|].
  intros count cap Hcap Hnz.
  pose proof (limit_refusal v w count descs cap Hlist Hcap Hnz
                (actualCount descs) eq_refl) as Hiff.
  split; [exact Hiff|].
  intros Hover.
  assert (cap < actualCount descs + count) as Hlt by lia.
  unfold createInstances, bind, _describeInstances. rewrite Hlist.
  unfold limitReached. rewrite Hcap. simpl.
  destruct (Z.eqb_spec cap 0) as [|_]; [contradiction|]. simpl.
  apply Z.ltb_lt in Hlt. rewrite Hlt. reflexivity.
Qed.

Lemma listing_at_most_counted_witness :
  Z.of_nat (length [Sample.activeModel])
  <= actualCount [Sample.active; Sample.deleting; Sample.other] /\
  fst (createInstances
         (Sample.vendor [Sample.active; Sample.deleting; Sample.other]) 4
         Sample.world) = Throw (ReferenceError "reject") /\
  createInstances
    (Sample.vendor [Sample.active; Sample.deleting; Sample.other]) 5 Sample.world
  = (Throw (ReferenceError "reject"),
     issue (describeRequest Sample.config) Sample.world).
Proof.
  destruct (listing_at_most_counted
              (Sample.vendor [Sample.active; Sample.deleting; Sample.other])
              Sample.world
              (snd (getModels (Sample.vendor [Sample.active; Sample.deleting; Sample.other])
                              Sample.world))
              [Sample.activeModel] [Sample.active; Sample.deleting; Sample.other]
              eq_refl eq_refl) as [Hle Hcap].
  split; [exact Hle|]. split.
  - apply (proj1 (Hcap 4 5 eq_refl ltac:(discriminate))).
    vm_compute. reflexivity.
  - apply (proj2 (Hcap 5 5 eq_refl ltac:(discriminate))).
    vm_compute. reflexivity.
Defined.

(** X5: a [createInstances] that succeeds has sent, in this order: the
    listing request, one list request for each id that was missing
    (flavor, snapshot, ssh key), and [count] copies of one creation
    request, which carries the ids the provider holds at the end, the
    pool name, the service and the region.  It resolves with [count]
    results. *)
Theorem creation_requests_on_success (v : Vendor) (w w' : World) (count : Z)
  (r : list unit) :
  createInstances v count w = (Ok r, w') ->
  requests w'
  = (requests w ++ [describeRequest (_config (self w))]
       ++ initRequests (self w)
       ++ repeat (createRequest (self w')) (Z.to_nat count))%list /\
  length r = Z.to_nat count /\
  _config (self w') = _config (self w).
Proof.
  intros Hcall.
  assert (exists descs, instances v (requests w) = Succeeded descs /\
            limitReached (_config (self w)) (actualCount descs) count = false)
    as (descs & Hlist & Hlimit).
  { revert Hcall. unfold createInstances, bind, _describeInstances.
    destruct (instances v (requests w)) as [err res|descs]; [discriminate|].
    destruct (limitReached _ _ _) eqn:Hl; [discriminate|]. eauto. }
  destruct (creation_trace v w count descs Hlist Hlimit)
    as (rest & Hreq & Hcfg & _ & Hok & _).
  rewrite Hcall in *. simpl in *.
  destruct (Hok r eq_refl) as [-> Hlen]. auto.
Qed.

Lemma creation_requests_on_success_witness :
  requests (snd (createInstances (Sample.vendor [Sample.active]) 2 Sample.world))
  = [describeRequest Sample.config;
     catalogueRequest Sample.config "flavor";
     catalogueRequest Sample.config "snapshot";
     catalogueRequest Sample.config "sshkey";
     createRequest (setSshKeyId (JJson (JStr "K-1"))
                     (setSnapshotId (JJson (JStr "S-1"))
                        (setFlavorId (JJson (JStr "F-1")) (Sample.provider 3128))));
     createRequest (setSshKeyId (JJson (JStr "K-1"))
                     (setSnapshotId (JJson (JStr "S-1"))
                        (setFlavorId (JJson (JStr "F-1")) (Sample.provider 3128))))].
Proof.
  destruct (creation_requests_on_success (Sample.vendor [Sample.active])
              Sample.world
              (snd (createInstances (Sample.vendor [Sample.active]) 2 Sample.world))
              2 [tt; tt] eq_refl) as (Hreq & _ & _).
  rewrite Hreq. reflexivity.
Defined.

(** X6: no partial fan-out.  Once the listing has answered and the cap
    lets the call through, the lookups of the missing ids are all sent,
    whether or not one of them fails, and then either no creation
    request at all (a lookup failed) or all [count] of them (also when
    the vendor refuses some); a rejection then carries a vendor failure
    or a name that was not found. *)
Theorem creation_all_or_nothing (v : Vendor) (w : World) (count : Z)
  (descs : list RawInstanceDescriptor) :
  instances v (requests w) = Succeeded descs ->
  limitReached (_config (self w)) (actualCount descs) count = false ->
  exists rest,
    requests (snd (createInstances v count w))
    = (requests w ++ [describeRequest (_config (self w))]
         ++ initRequests (self w) ++ rest)%list /\
    (countSent "POST" instancePath rest = 0%nat \/
     countSent "POST" instancePath rest = Z.to_nat count) /\
    countSent "POST" instancePath (requests (snd (createInstances v count w)))
    = (countSent "POST" instancePath (requests w)
       + countSent "POST" instancePath rest)%nat /\
    (forall e, fst (createInstances v count w) = Throw e -> requestError e = true).
Proof.
  intros Hlist Hlimit.
  destruct (creation_trace v w count descs Hlist Hlimit)
    as (rest & Hreq & _ & Hrest & _ & Hthrow).
  exists rest. split; [exact Hreq|]. split; [|split; [|exact Hthrow]].
  - destruct Hrest as [->| ->]; [left; reflexivity|right; apply creates_posts].
  - rewrite Hreq, !countSent_app, initRequests_no_post. simpl. lia.
Qed.

Lemma creation_all_or_nothing_witness :
  exists rest,
    requests (snd (createInstances Sample.bare 3 Sample.world))
    = (requests Sample.world ++ [describeRequest Sample.config]
         ++ initRequests (self Sample.world) ++ rest)%list /\
    (countSent "POST" instancePath rest = 0%nat \/
     countSent "POST" instancePath rest = Z.to_nat 3) /\
    countSent "POST" instancePath
      (requests (snd (createInstances Sample.bare 3 Sample.world)))
    = (countSent "POST" instancePath (requests Sample.world)
       + countSent "POST" instancePath rest)%nat /\
    (forall e, fst (createInstances Sample.bare 3 Sample.world) = Throw e ->
       requestError e = true).
Proof.
  apply (creation_all_or_nothing Sample.bare Sample.world 3 []); reflexivity.
Defined.

(** X7: the limit branch, and nothing else, ends a call with the
    ReferenceError of the unbound [reject]: this happens exactly when
    the listing answered, a cap other than zero is configured and the
    instances not DELETING plus [count] are above it.  A call that
    reaches the cap exactly, a cap of 0 and a missing cap let the call
    through. *)
Theorem limit_branch_exact (v : Vendor) (w : World) (count : Z) :
  fst (createInstances v count w) = Throw (ReferenceError "reject") <->
  exists descs cap,
    instances v (requests w) = Succeeded descs /\
    maxRunningInstances (_config (self w)) = Some cap /\
    cap <> 0 /\ cap < actualCount descs + count.
Proof.
  split.
  - intros Hthrow.
    destruct (instances v (requests w)) as [err res|descs] eqn:Hlist.
    { unfold createInstances, bind, _describeInstances in Hthrow.
      rewrite Hlist in Hthrow. discriminate. }
    destruct (limitReached (_config (self w)) (actualCount descs) count) eqn:Hlimit.
    + unfold limitReached in Hlimit.
      destruct (maxRunningInstances (_config (self w))) as [cap|]; [|discriminate].
      apply andb_true_iff in Hlimit. destruct Hlimit as [Hnz Hlt].
      exists descs, cap. repeat split; auto.
      * simpl in Hnz. intros ->. discriminate.
      * now apply Z.ltb_lt.
    + destruct (creation_trace v w count descs Hlist Hlimit)
        as (_ & _ & _ & _ & _ & Hkind).
      specialize (Hkind _ Hthrow). discriminate.
  - intros (descs & cap & Hlist & Hcap & Hnz & Hlt).
    unfold createInstances, bind, _describeInstances. rewrite Hlist.
    unfold limitReached. rewrite Hcap. simpl.
    destruct (Z.eqb_spec cap 0) as [|_]; [contradiction|]. simpl.
    apply Z.ltb_lt in Hlt. rewrite Hlt. reflexivity.
Qed.

(** X8: a name that cannot be resolved stops the creation.  If the id
    of a resource is missing and no answer of the vendor to the list
    request of that resource holds an entry of the configured name, a
    call that got past the cap is rejected with a request error and
    sends no creation request. *)
Theorem unresolved_name_blocks_creation (v : Vendor) (res : Resource)
  (w : World) (count : Z) (descs : list RawInstanceDescriptor) :
  instances v (requests w) = Succeeded descs ->
  limitReached (_config (self w)) (actualCount descs) count = false ->
  truthy (slot res (self w)) = false ->
  (forall history results,
     respond v history (catalogueRequest (_config (self w)) (segment res))
       = Succeeded results ->
     findWhere results (wanted res (_config (self w))) = None) ->
  exists e,
    fst (createInstances v count w) = Throw e /\ requestError e = true /\
    countSent "POST" instancePath (requests (snd (createInstances v count w)))
    = countSent "POST" instancePath (requests w).
Proof.
  intros Hlist Hlimit Hunset Hnone.
  set (c := _config (self w)) in *.
  set (w1 := issue (describeRequest c) w).
  assert (forall r w2, init v w1 <> (Ok r, w2)) as Hfail.
  { intros r w2 Hinit. rewrite init_blocks in Hinit.
    assert (In (resolveStep v (segment res)
                  (match res with Flavor => "flavor" | Snapshot => "snapshot"
                                | SshKey => "sshKey" end)
                  (wanted res c)
                  (match res with Flavor => setFlavorId | Snapshot => setSnapshotId
                                | SshKey => setSshKeyId end))
               (fst (fst (blocks v w1)) ++ snd (fst (blocks v w1))
                  ++ snd (blocks v w1))%list) as Hin.
    { unfold blocks. cbn [fst snd]. rewrite !in_app_iff.
      destruct res; simpl in Hunset; unfold w1; simpl; rewrite Hunset; simpl; auto. }
    destruct (all_ok_each (fun w0 => _config (self w0) = c) _
                (fun p Hp w0 Hw0 =>
                   match blocks_In v w1 p Hp with
                   | ex_intro _ kind (ex_intro _ label (ex_intro _ nm
                       (ex_intro _ store (conj Heq Hstore)))) =>
                       eq_ind_r (fun q => _config (self (snd (q w0))) = c)
                         (eq_trans
                            (proj1 (proj2 (resolveStep_world v kind label nm store w0 Hstore)))
                            Hw0) Heq
                   end)
                w1 r w2 eq_refl Hinit _ Hin) as (w0 & a & Hw0 & Hok).
    destruct (resolveStep_ok_reply v _ _ _ _ _ _ Hok) as (results & entry & Hreply & Hfind).
    rewrite Hw0 in Hreply. rewrite (Hnone _ _ Hreply) in Hfind. discriminate. }
  pose proof (init_world v w1) as (Hreq & _ & _).
  pose proof (init_throw_kind v w1) as Hkind.
  unfold createInstances, bind, _describeInstances. rewrite Hlist.
  fold c. rewrite Hlimit. fold w1.
  destruct (init v w1) as [[r|e] w2] eqn:Hinit.
  - exfalso. eapply Hfail; eauto.
  - simpl in *. exists e. repeat split; auto.
    rewrite Hreq. unfold w1. simpl.
    rewrite !countSent_app, initRequests_no_post.
    change (countSent "POST" instancePath [describeRequest c]) with 0%nat. lia.
Qed.

Lemma unresolved_name_blocks_creation_witness :
  exists e,
    fst (createInstances Sample.bare 3 Sample.world) = Throw e /\
    requestError e = true /\
    countSent "POST" instancePath
      (requests (snd (createInstances Sample.bare 3 Sample.world)))
    = countSent "POST" instancePath (requests Sample.world).
Proof.
  apply (unresolved_name_blocks_creation Sample.bare Snapshot Sample.world 3 []).
  - reflexivity.
  - reflexivity.
  - reflexivity.
  - intros history results H. injection H as <-. reflexivity.
Defined.

(** ** Lookup by name *)

(** X9: the lookup in a vendor list is by exact name and takes the first
    hit: the entry found is an object whose [name] is the very string
    looked for, no entry before it has that name, and nothing is found
    only when no entry has it. *)
Theorem findWhere_first_exact (l : list Json) (nm : string) :
  match findWhere (JArr l) nm with
  | Some entry =>
      exists l1 l2 props,
        l = (l1 ++ entry :: l2)%list /\ entry = JObj props /\
        get (json_props props) "name" = JJson (JStr nm) /\
        forall x, In x l1 -> named nm x = false
  | None => forall x, In x l -> named nm x = false
  end.
Proof.
  simpl. induction l as [|a r IH]; simpl; [tauto|].
  destruct (named nm a) eqn:Ha.
  - exists [], r. destruct a as [| | | | |props]; try discriminate.
    exists props. repeat split; auto; [|intros x []].
    simpl in Ha. destruct (get (json_props props) "name") as [|j|f];
      try discriminate.
    destruct j; try discriminate. simpl in Ha.
    apply String.eqb_eq in Ha. now subst.
  - destruct (find (named nm) r) as [entry|].
    + destruct IH as (l1 & l2 & props & -> & -> & Hname & Hbefore).
      exists (a :: l1), l2, props. repeat split; auto.
      intros x [<-|Hx]; auto.
    + intros x [<-|Hx]; auto.
Qed.

(** ** Deleting what was listed *)

(** X10: deleting a model that [getModels] listed sends one DELETE whose
    [instanceId] is the vendor id of a listed descriptor, the one the
    model reports as its [id]; the promise resolves with the vendor's
    results, or is rejected with the vendor's error and results. *)
Theorem delete_listed_model (v : Vendor) (w w1 : World)
  (models : list InstanceModel) (m : InstanceModel) (v2 : Vendor) (w2 : World) :
  getModels v w = (Ok models, w1) ->
  In m models ->
  exists descs d,
    instances v (requests w) = Succeeded descs /\ In d descs /\
    id m = rawId d /\
    snd (deleteInstance v2 m w2)
      = issue (deleteRequest (_config (self w2)) (rawId d)) w2 /\
    fst (deleteInstance v2 m w2)
      = match respond v2 (requests w2)
                (deleteRequest (_config (self w2)) (rawId d)) with
        | Failed err results => Throw (VendorFailure err results)
        | Succeeded results => Ok results
        end.
Proof.
  intros Hget Hin.
  destruct (getModels_normalize _ _ v w w1 models eq_refl eq_refl Hget)
    as (descs & lg & Hd & Hn & _).
  destruct (normalize_In _ _ _ _ _ _ Hn Hin) as (d & Hind & Hsum & _ & _ & Hm).
  destruct (summarizeOne_reads d _ Hsum) as (Hid & _).
  exists descs, d. split; [exact Hd|]. split; [exact Hind|].
  assert (id m = rawId d) as Hmid.
  { rewrite Hm. unfold toModel. destruct (convertStatus _). simpl. exact Hid. }
  split; [exact Hmid|].
  unfold deleteInstance, getProviderOpts. rewrite deleteInstance_step, Hid.
  split; reflexivity.
Qed.

Lemma delete_listed_model_witness :
  exists descs d,
    instances (Sample.vendor [Sample.active]) (requests Sample.world)
      = Succeeded descs /\ In d descs /\
    id Sample.activeModel = rawId d /\
    snd (deleteInstance Sample.refusing Sample.activeModel Sample.world)
      = issue (deleteRequest (_config (self Sample.world)) (rawId d)) Sample.world /\
    fst (deleteInstance Sample.refusing Sample.activeModel Sample.world)
      = match respond Sample.refusing (requests Sample.world)
                (deleteRequest (_config (self Sample.world)) (rawId d)) with
        | Failed err results => Throw (VendorFailure err results)
        | Succeeded results => Ok results
        end.
Proof.
  apply (delete_listed_model (Sample.vendor [Sample.active]) Sample.world
           (snd (getModels (Sample.vendor [Sample.active]) Sample.world))
           [Sample.activeModel] Sample.activeModel Sample.refusing Sample.world).
  - reflexivity.
  - left. reflexivity.
Defined.

(** ** Ids kept across failures *)

Section Caching.

Variable v : Vendor.

Lemma blocks_In_block (w : World) (p : M unit) :
  In p (fst (fst (blocks v w)) ++ snd (fst (blocks v w)) ++ snd (blocks v w))%list ->
  exists res, p = block v (_config (self w)) res.
Proof.
  unfold blocks. cbn [fst snd]. rewrite !in_app_iff.
  intros [H|[H|H]];
    match type of H with
    | In _ (if ?b then _ else _) => destruct b
    end; simpl in H; try tauto; destruct H as [<-|[]].
  - exists Flavor. reflexivity.
  - exists Snapshot. reflexivity.
  - exists SshKey. reflexivity.
Qed.

Lemma block_In_blocks (res : Resource) (w : World) :
  truthy (slot res (self w)) = false ->
  In (block v (_config (self w)) res)
     (fst (fst (blocks v w)) ++ snd (fst (blocks v w)) ++ snd (blocks v w))%list.
Proof.
  intros Hunset. unfold blocks. cbn [fst snd]. rewrite !in_app_iff.
  destruct res; simpl in Hunset; rewrite Hunset; simpl; auto.
Qed.

Lemma store_other (res res' : Resource) (x : JsVal) (p : Provider) :
  res <> res' -> slot res (store res' x p) = slot res p.
Proof. destruct res, res'; intros H; try reflexivity; congruence. Qed.

Lemma store_same (res : Resource) (x : JsVal) (p : Provider) :
  slot res (store res x p) = x.
Proof. destruct res; reflexivity. Qed.

Lemma store_config (res : Resource) (x : JsVal) (p : Provider) :
  _config (store res x p) = _config p.
Proof. destruct res; reflexivity. Qed.

Lemma Resource_eq_dec (a b : Resource) : {a = b} + {a <> b}.
Proof. decide equality. Qed.

(** Something every promise keeps, and one of them brings about, holds
    when [Promise.all] has settled. *)
Lemma all_establishes {A} (Inv Done : World -> Prop) (ps : list (M A)) (q : M A) :
  (forall p, In p ps -> forall w0, Inv w0 ->
     Inv (snd (p w0)) /\ (Done w0 -> Done (snd (p w0)))) ->
  In q ps ->
  (forall w0, Inv w0 -> Done (snd (q w0))) ->
  forall w, Inv w -> Done (snd (all ps w)).
Proof.
  intros Hkeep Hq Hdone.
  assert (forall l, (forall p, In p l -> In p ps) ->
            forall w, Inv w ->
              Inv (snd (all l w)) /\ (Done w -> Done (snd (all l w))) /\
              (In q l -> Done (snd (all l w)))) as Hgen.
  { induction l as [|p l IH]; intros Hsub w Hinv.
    - simpl. repeat split; auto. intros [].
    - rewrite all_cons_world.
      destruct (Hkeep p (Hsub p (or_introl eq_refl)) w Hinv) as [Hi Hd].
      destruct (IH (fun p0 H0 => Hsub p0 (or_intror H0)) (snd (p w)) Hi)
        as (Hi' & Hd' & Hq').
      repeat split; auto.
      intros [->|Hin]; auto. }
  intros w Hinv. apply (Hgen ps (fun p H => H) w Hinv). exact Hq.
Qed.

(** X11: an id that was found stays, whatever becomes of the call.  If
    the id of a resource is missing and the vendor answers the list
    request of that resource with a list holding the configured name,
    then after a call that got past the cap the provider holds the id of
    the first entry of that name, also when another lookup or a creation
    failed and the call was rejected. *)
Theorem resolved_id_survives_failure (res : Resource) (w : World) (count : Z)
  (descs : list RawInstanceDescriptor) (results entry : Json) :
  instances v (requests w) = Succeeded descs ->
  limitReached (_config (self w)) (actualCount descs) count = false ->
  truthy (slot res (self w)) = false ->
  (forall history,
     respond v history (catalogueRequest (_config (self w)) (segment res))
       = Succeeded results) ->
  findWhere results (wanted res (_config (self w))) = Some entry ->
  slot res (self (snd (createInstances v count w))) = entryId entry.
Proof.
  intros Hlist Hlimit Hunset Hreply Hfind.
  set (c := _config (self w)) in *.
  set (w1 := issue (describeRequest c) w).
  assert (forall w0, _config (self w0) = c ->
            slot res (self (snd (block v c res w0))) = entryId entry) as Hest.
  { intros w0 Hw0. unfold block, resolveStep, getByName, bind, request. simpl.
    rewrite Hw0, Hreply. simpl. rewrite Hfind. simpl. apply store_same. }
  assert (slot res (self (snd (init v w1))) = entryId entry) as Hinit.
  { rewrite init_blocks.
    apply (all_establishes (fun w0 => _config (self w0) = c)
             (fun w0 => slot res (self w0) = entryId entry)
             _ (block v c res)); auto.
    - intros p Hp w0 Hw0.
      destruct (blocks_In_block w1 p Hp) as [res' ->].
      change (_config (self w1)) with c.
      destruct (resolveStep_world v (segment res') (noun res') (wanted res' c)
                  (store res') w0 (store_config res')) as (_ & Hc & _).
      split; [unfold block; congruence|].
      intros Hdone.
      destruct (Resource_eq_dec res res') as [<-|Hne]; [auto|].
      unfold block.
      destruct (resolveStep_cases v (segment res') (noun res') (wanted res' c)
                  (store res') w0) as [[e ->]|(rs & en & Hf & ->)]; simpl; auto.
      rewrite store_other by exact Hne. exact Hdone.
    - change (_config (self w1)) with c. apply (block_In_blocks res w1).
      exact Hunset. }
  unfold createInstances, bind, _describeInstances. rewrite Hlist.
  fold c. rewrite Hlimit. fold w1.
  destruct (init v w1) as [[r|e] w2]; simpl in Hinit; simpl; auto.
  pose proof (creates_world v (Z.to_nat count) w2) as Hc.
  destruct (all (repeat (createInstance v) (Z.to_nat count)) w2) as [x w3].
  simpl in *. subst w3. exact Hinit.
Qed.

End Caching.

Lemma resolved_id_survives_failure_witness :
  (exists e, fst (createInstances Sample.flavorOnly 1 Sample.world) = Throw e) /\
  slot Flavor (self (snd (createInstances Sample.flavorOnly 1 Sample.world)))
    = JJson (JStr "F-1").
Proof.
  split; [eexists; reflexivity|].
  apply (resolved_id_survives_failure Sample.flavorOnly Flavor Sample.world 1 []
           (JArr [JObj [("id", JStr "F-1"); ("name", JStr "vps-ssd-1")]])
           (JObj [("id", JStr "F-1"); ("name", JStr "vps-ssd-1")]));
    reflexivity.
Defined.

(** ** From construction to the first creation *)

(** X12: the first successful [createInstances] of a provider just
    constructed sends the listing request, then the three list requests
    (flavor, snapshot, ssh key: no id is there yet), then [count] equal
    creation requests, and nothing else. *)
Theorem first_call_of_fresh_provider (ovh : JsObj -> Result JsObj) (v : Vendor)
  (config : ProviderConfig)
  (instancePort count : Z) (p : Provider) (r : list unit) (w' : World) :
  ProviderOVHCloud ovh (Some config) (Some instancePort) = Ok p ->
  createInstances v count {| self := p; requests := []; logs := [] |} = (Ok r, w') ->
  requests w'
  = ([describeRequest config;
      catalogueRequest config "flavor";
      catalogueRequest config "snapshot";
      catalogueRequest config "sshkey"]
     ++ repeat (createRequest (self w')) (Z.to_nat count))%list /\
  _config (self w') = config /\
  length r = Z.to_nat count.
Proof.
  intros Hnew Hcall.
  unfold ProviderOVHCloud in Hnew.
  destruct (negb (json_truthy (JNum instancePort))); [discriminate|].
  destruct (ovh (clientOptions config)) as [client|e]; [|discriminate].
  simpl in Hnew. injection Hnew as <-.
  set (w := {| self := _; requests := []; logs := [] |}) in *.
  assert (exists descs, instances v (requests w) = Succeeded descs /\
            limitReached (_config (self w)) (actualCount descs) count = false)
    as (descs & Hlist & Hlimit).
  { revert Hcall. unfold createInstances, bind, _describeInstances.
    destruct (instances v (requests w)) as [err res|descs]; [discriminate|].
    destruct (limitReached _ _ _) eqn:Hl; [discriminate|]. eauto. }
  destruct (creation_trace v w count descs Hlist Hlimit)
    as (rest & Hreq & Hcfg & _ & Hok & _).
  rewrite Hcall in *. simpl in Hreq, Hcfg, Hok.
  destruct (Hok r eq_refl) as [-> Hlen].
  repeat split; auto.
Qed.

Lemma first_call_of_fresh_provider_witness :
  requests (snd (createInstances (Sample.vendor [])
                   1 {| self := Sample.provider 3128; requests := []; logs := [] |}))
  = ([describeRequest Sample.config;
      catalogueRequest Sample.config "flavor";
      catalogueRequest Sample.config "snapshot";
      catalogueRequest Sample.config "sshkey"]
     ++ repeat (createRequest
                  (self (snd (createInstances (Sample.vendor []) 1
                     {| self := Sample.provider 3128; requests := []; logs := [] |}))))
               (Z.to_nat 1))%list.
Proof.
  destruct (first_call_of_fresh_provider Sample.sdk (Sample.vendor [])
              Sample.config 3128 1
              (Sample.provider 3128) [tt]
              (snd (createInstances (Sample.vendor []) 1
                      {| self := Sample.provider 3128; requests := []; logs := [] |}))
              eq_refl eq_refl) as (Hreq & _ & _).
  exact Hreq.
Defined.

(** ** What a model's status tells *)

(** X13: the status of a listed model can be read backwards: a model is
    STARTED only if the vendor reported ACTIVE for its instance, and
    STARTING only if it reported BUILD; any other report, a missing
    status included, shows as ERROR. *)
Theorem status_reflects_vendor (v : Vendor) (w w' : World)
  (models : list InstanceModel) (m : InstanceModel) :
  getModels v w = (Ok models, w') ->
  In m models ->
  exists descs d,
    instances v (requests w) = Succeeded descs /\ In d descs /\
    summarizeOne d = Ok (providerOpts m) /\
    (status m = STARTED <-> rawStatus d = JJson (JStr "ACTIVE")) /\
    (status m = STARTING <-> rawStatus d = JJson (JStr "BUILD")) /\
    (status m = ERROR <->
     rawStatus d <> JJson (JStr "ACTIVE") /\ rawStatus d <> JJson (JStr "BUILD")).
Proof.
  intros Hget Hin.
  destruct (getModels_normalize _ _ v w w' models eq_refl eq_refl Hget)
    as (descs & lg & Hd & Hn & _).
  destruct (normalize_In _ _ _ _ _ _ Hn Hin) as (d & Hind & Hsum & _ & _ & Hm).
  destruct (summarizeOne_reads d _ Hsum) as (_ & Hst & _).
  exists descs, d. split; [exact Hd|]. split; [exact Hind|]. split; [exact Hsum|].
  assert (status m = fst (convertStatus (rawStatus d))) as ->.
  { rewrite Hm at 1. rewrite <- Hst. apply toModel_status. }
  assert (forall st t, is_str st t = true <-> st = JJson (JStr t)) as Hstr.
  { intros st t. destruct st as [|j|f]; simpl; try (split; discriminate).
    destruct j; simpl; try (split; discriminate).
    rewrite String.eqb_eq. split; [intros ->; reflexivity|intros [= ->]; reflexivity]. }
  unfold convertStatus, ST_ACTIVE, ST_BUILD, ST_ERROR.
  destruct (is_str (rawStatus d) "ACTIVE") eqn:Ea.
  { apply Hstr in Ea. rewrite Ea. simpl.
    repeat split; auto; try discriminate. intros [H _]. congruence. }
  destruct (is_str (rawStatus d) "BUILD") eqn:Eb.
  { apply Hstr in Eb. rewrite Eb. simpl.
    repeat split; auto; try discriminate. intros [_ H]. congruence. }
  assert (rawStatus d <> JJson (JStr "ACTIVE")) as Na.
  { intros H. apply Hstr in H. congruence. }
  assert (rawStatus d <> JJson (JStr "BUILD")) as Nb.
  { intros H. apply Hstr in H. congruence. }
  destruct (is_str (rawStatus d) "ERROR"); simpl;
    repeat split; auto; try discriminate; try contradiction.
Qed.

Lemma status_reflects_vendor_witness :
  exists descs d,
    instances (Sample.vendor [Sample.suspended]) (requests Sample.world)
      = Succeeded descs /\ In d descs /\
    summarizeOne d = Ok (providerOpts Sample.suspendedModel) /\
    (status Sample.suspendedModel = STARTED <-> rawStatus d = JJson (JStr "ACTIVE")) /\
    (status Sample.suspendedModel = STARTING <-> rawStatus d = JJson (JStr "BUILD")) /\
    (status Sample.suspendedModel = ERROR <->
     rawStatus d <> JJson (JStr "ACTIVE") /\ rawStatus d <> JJson (JStr "BUILD")).
Proof.
  apply (status_reflects_vendor (Sample.vendor [Sample.suspended]) Sample.world
           (snd (getModels (Sample.vendor [Sample.suspended]) Sample.world))
           [Sample.suspendedModel] Sample.suspendedModel).
  - reflexivity.
  - left. reflexivity.
Defined.

(** ** Listing piece by piece *)

Lemma mapR_app {A B} (f : A -> Result B) (l1 l2 : list A) (ys : list B) :
  mapR f (l1 ++ l2) = Ok ys <->
  exists y1 y2, mapR f l1 = Ok y1 /\ mapR f l2 = Ok y2 /\ ys = (y1 ++ y2)%list.
Proof.
  revert ys. induction l1 as [|a r IH]; intros ys; simpl.
  - split.
    + intros H. exists [], ys. auto.
    + intros (y1 & y2 & [= <-] & H2 & ->). exact H2.
  - destruct (f a) as [b|e]; simpl.
    + destruct (mapR f (r ++ l2)) as [bs|e] eqn:Hr; simpl.
      * destruct (proj1 (IH bs) eq_refl) as (y1 & y2 & H1 & H2 & ->).
        rewrite H1. simpl. split.
        -- intros [= <-]. exists (b :: y1), y2. auto.
        -- intros (z1 & z2 & [= <-] & Hz & ->).
           rewrite H2 in Hz. injection Hz as <-. reflexivity.
      * split; [discriminate|].
        intros (z1 & z2 & Hz1 & Hz2 & ->).
        destruct (mapR f r) as [y1|]; simpl in Hz1; [|discriminate].
        assert (@Throw (list B) e = Ok (y1 ++ z2)%list) as Hc.
        { apply IH. exists y1, z2. auto. }
        discriminate.
    + split; [discriminate|]. intros (z1 & z2 & Hz1 & _). discriminate.
Qed.

Lemma filterR_app {A} (p : A -> Result bool) (l1 l2 ys : list A) :
  filterR p (l1 ++ l2) = Ok ys <->
  exists y1 y2, filterR p l1 = Ok y1 /\ filterR p l2 = Ok y2 /\ ys = (y1 ++ y2)%list.
Proof.
  revert ys. induction l1 as [|a r IH]; intros ys; simpl.
  - split.
    + intros H. exists [], ys. auto.
    + intros (y1 & y2 & [= <-] & H2 & ->). exact H2.
  - destruct (p a) as [b|e]; simpl.
    + destruct (filterR p (r ++ l2)) as [bs|e] eqn:Hr; simpl.
      * destruct (proj1 (IH bs) eq_refl) as (y1 & y2 & H1 & H2 & ->).
        rewrite H1. simpl. split.
        -- intros [= <-]. exists (if b then a :: y1 else y1), y2.
           destruct b; auto.
        -- intros (z1 & z2 & [= <-] & Hz & ->).
           rewrite H2 in Hz. injection Hz as <-. destruct b; reflexivity.
      * split; [discriminate|].
        intros (z1 & z2 & Hz1 & Hz2 & ->).
        destruct (filterR p r) as [y1|]; simpl in Hz1; [|discriminate].
        assert (@Throw (list A) e = Ok (y1 ++ z2)%list) as Hc.
        { apply IH. exists y1, z2. auto. }
        discriminate.
    + split; [discriminate|]. intros (z1 & z2 & Hz1 & _). discriminate.
Qed.

(** X14: the pipeline of [getModels] treats the descriptors one by one
    and keeps their order: the listing of two vendor answers put end to
    end goes through exactly when both listings do, and is then the
    first listing followed by the second, models and log lines alike. *)
Theorem listing_distributes (config : ProviderConfig) (instancePort : Z)
  (l1 l2 : list RawInstanceDescriptor) (models : list InstanceModel)
  (lg : list LogEntry) :
  normalize config instancePort (l1 ++ l2) = Ok (models, lg) <->
  exists m1 g1 m2 g2,
    normalize config instancePort l1 = Ok (m1, g1) /\
    normalize config instancePort l2 = Ok (m2, g2) /\
    models = (m1 ++ m2)%list /\ lg = (g1 ++ g2)%list.
Proof.
  unfold normalize, summarizeInfo, excludeOutscope, excludeTerminated.
  assert (forall k1 k2,
            convertToModel instancePort (k1 ++ k2)
            = ((fst (convertToModel instancePort k1)
                  ++ fst (convertToModel instancePort k2))%list,
               (snd (convertToModel instancePort k1)
                  ++ snd (convertToModel instancePort k2))%list)) as Hconv.
  { intros k1 k2. unfold convertToModel. simpl.
    now rewrite !map_app, concat_app. }
  split.
  - destruct (mapR summarizeOne (l1 ++ l2)) as [ss|] eqn:Hs; simpl; [|discriminate].
    apply mapR_app in Hs. destruct Hs as (s1 & s2 & -> & -> & ->). simpl.
    rewrite filter_app.
    destruct (filterR _ (_ ++ _)) as [kept|] eqn:Hk; simpl; [|discriminate].
    apply filterR_app in Hk. destruct Hk as (k1 & k2 & -> & -> & ->). simpl.
    rewrite Hconv. intros [= <- <-].
    do 4 eexists. repeat split;
      destruct (convertToModel instancePort k1), (convertToModel instancePort k2);
      reflexivity.
  - intros (m1 & g1 & m2 & g2 & H1 & H2 & -> & ->).
    destruct (mapR summarizeOne l1) as [s1|] eqn:Hs1; simpl in H1; [|discriminate].
    destruct (mapR summarizeOne l2) as [s2|] eqn:Hs2; simpl in H2; [|discriminate].
    destruct (filterR _ (filter notDeleting s1)) as [k1|] eqn:Hk1;
      simpl in H1; [|discriminate].
    destruct (filterR _ (filter notDeleting s2)) as [k2|] eqn:Hk2;
      simpl in H2; [|discriminate].
    assert (mapR summarizeOne (l1 ++ l2) = Ok (s1 ++ s2)%list) as ->.
    { apply mapR_app. exists s1, s2. auto. }
    simpl. rewrite filter_app.
    assert (filterR (inScope (name config))
              (filter notDeleting s1 ++ filter notDeleting s2)
            = Ok (k1 ++ k2)%list) as ->.
    { apply filterR_app. exists k1, k2. auto. }
    simpl. rewrite Hconv.
    injection H1 as <- <-. injection H2 as <- <-. reflexivity.
Qed.

(** ** Nothing to create *)

(** X15: with the three ids already in the provider, a call for no
    instance (a count of zero or below) that the cap lets through is the
    listing request and nothing more: it succeeds with no result,
    whatever the vendor would have answered to a creation. *)
Theorem nothing_to_create (v : Vendor) (w : World) (count : Z)
  (descs : list RawInstanceDescriptor) :
  count <= 0 ->
  (forall res, truthy (slot res (self w)) = true) ->
  instances v (requests w) = Succeeded descs ->
  limitReached (_config (self w)) (actualCount descs) count = false ->
  createInstances v count w
  = (Ok [], issue (describeRequest (_config (self w))) w).
Proof.
  intros Hcount Hids Hlist Hlimit.
  unfold createInstances, bind, _describeInstances. rewrite Hlist, Hlimit.
  unfold init. cbn [issue self].
  pose proof (Hids Flavor) as Hf. pose proof (Hids Snapshot) as Hs.
  pose proof (Hids SshKey) as Hk. simpl in Hf, Hs, Hk.
  rewrite Hf, Hs, Hk. cbn [negb app all].
  replace (Z.to_nat count) with 0%nat by lia. reflexivity.
Qed.

Lemma nothing_to_create_witness :
  createInstances Sample.refusing 0
    (snd (createInstances (Sample.vendor []) 1 Sample.world))
  = (Ok [],
     issue (describeRequest Sample.config)
       (snd (createInstances (Sample.vendor []) 1 Sample.world))).
Proof.
  apply (nothing_to_create Sample.refusing
           (snd (createInstances (Sample.vendor []) 1 Sample.world)) 0 []).
  - lia.
  - intros res. destruct res; reflexivity.
  - reflexivity.
  - reflexivity.
Defined.
